(** * github-statuses: incident extraction, checked against its specification

    A shallow embedding of [scripts/extract_incidents.py] and of the audit
    pass of [scripts/run_gliner_experiment.py], followed by the theorems that
    settle the specification's claims about them.

    Conventions of the embedding.
    - Python [int] is [Z]; [str] is [string], read as ASCII text.
    - A Python call that may raise is a [result]; [None] is [option].
    - A [dict] whose iteration order the code relies on (the update map of a
      merged incident, the incident table of [main]) is an association list
      in insertion order; the impact cache, only ever looked up and
      overwritten by URL, is a [gmap].
    - [datetime] values are timezone-aware, as every timestamp the script
      builds or parses from the feed is; they carry their UTC offset.
    - What lives outside the repository (git, the network, the extraction
      model, the XML and HTML-entity libraries, the clock) is a variable of
      the section that uses it. *)

From Stdlib Require Import ZArith QArith String Ascii List Lia Sorted Permutation.
From Stdlib Require Import DecimalString.
From stdpp Require Import gmap strings.

Local Open Scope string_scope.
Local Open Scope Z_scope.

(** ** Python exceptions and fallible computations *)

Inductive exn : Type :=
| ValueError
| KeyError
| OverflowError
| URLError
| TypeError
| FileNotFoundError
| RuntimeError (msg : string)
| SystemExit (msg : string).

Inductive result (A : Type) : Type :=
| Ok (a : A)
| Raise (e : exn).

Arguments Ok {A} a.
Arguments Raise {A} e.

#[export] Instance result_ret : MRet result := fun _ a => Ok a.
#[export] Instance result_fmap : FMap result := fun _ _ f r =>
  match r with
  | Ok a => Ok (f a)
  | Raise e => Raise e
  end.
#[export] Instance result_bind : MBind result := fun _ _ f r =>
  match r with
  | Ok a => f a
  | Raise e => Raise e
  end.

(** The value of a computation that did not raise. *)
Definition option_of_result {A : Type} (r : result A) : option A :=
  match r with
  | Ok a => Some a
  | Raise _ => None
  end.

(** ** [list.sort(key=...)]: a stable sort that only ever asks [<] of keys *)

Section StableSort.
Context {A K : Type} (key : A -> K) (lt : K -> K -> bool).

Fixpoint sort_insert (x : A) (l : list A) : list A :=
  match l with
  | [] => [x]
  | y :: l' => if lt (key y) (key x) then y :: sort_insert x l' else x :: l
  end.

Definition sort_by (l : list A) : list A := foldr sort_insert [] l.

(** [a] may stand before [b]: the key of [b] is not below the key of [a]. *)
Definition key_le (a b : A) : Prop := lt (key b) (key a) = false.
End StableSort.

(** ** The proleptic Gregorian calendar of Python's [datetime] *)

Definition MINYEAR : Z := 1.
Definition MAXYEAR : Z := 9999.

Definition is_leap (y : Z) : bool :=
  (y mod 4 =? 0) && (negb (y mod 100 =? 0) || (y mod 400 =? 0)).

Definition days_before_year (y : Z) : Z :=
  let p := y - 1 in p * 365 + p / 4 - p / 100 + p / 400.

Definition days_in_month (y m : Z) : Z :=
  if m =? 2 then (if is_leap y then 29 else 28)
  else if (m =? 4) || (m =? 6) || (m =? 9) || (m =? 11) then 30
  else 31.

Definition days_before_month (y m : Z) : Z :=
  nth (Z.to_nat m) [0; 0; 31; 59; 90; 120; 151; 181; 212; 243; 273; 304; 334] 0
  + (if (2 <? m) && is_leap y then 1 else 0).

Definition ymd2ord (y m d : Z) : Z :=
  days_before_year y + days_before_month y m + d.

(** An aware [datetime]: civil fields plus the UTC offset in seconds. *)
Record datetime : Type := mk_datetime {
  year : Z;
  month : Z;
  day : Z;
  hour : Z;
  minute : Z;
  second : Z;
  microsecond : Z;
  utcoffset : Z
}.

Definition check_date_fields (y m d : Z) : bool :=
  (MINYEAR <=? y) && (y <=? MAXYEAR) && (1 <=? m) && (m <=? 12)
  && (1 <=? d) && (d <=? days_in_month y m).

Definition check_time_fields (h mi s us : Z) : bool :=
  (0 <=? h) && (h <=? 23) && (0 <=? mi) && (mi <=? 59)
  && (0 <=? s) && (s <=? 59) && (0 <=? us) && (us <=? 999999).

(** [datetime(y, m, d, h, mi, tzinfo=timezone.utc)] *)
Definition datetime_utc (y m d h mi : Z) : result datetime :=
  if check_date_fields y m d && check_time_fields h mi 0 0
  then Ok (mk_datetime y m d h mi 0 0 0)
  else Raise ValueError.

(** The instant a datetime denotes, in microseconds since 0001-01-01T00:00Z.
    Aware datetimes are compared and subtracted as instants. *)
Definition instant_us (dt : datetime) : Z :=
  (((ymd2ord (year dt) (month dt) (day dt) - 1) * 86400
    + hour dt * 3600 + minute dt * 60 + second dt - utcoffset dt) * 1000000)
  + microsecond dt.

Definition dt_ltb (a b : datetime) : bool := instant_us a <? instant_us b.
Definition dt_leb (a b : datetime) : bool := instant_us a <=? instant_us b.

(** [(a - b)] as a timedelta, in microseconds. [total_seconds()] is this
    number over 10^6 as a float; within the few years that separate the
    timestamps of one incident the conversion is injective and monotone, so
    comparisons of [total_seconds()] are comparisons of these integers. *)
Definition timedelta_us (a b : datetime) : Z := instant_us a - instant_us b.

(** ** [infer_year] *)

Definition infer_year (reference_dt : datetime) (month day hour minute : Z)
  : option datetime :=
  let candidates :=
    flat_map
      (fun year =>
         match datetime_utc year month day hour minute with
         | Raise _ => []                                  (* except ValueError: continue *)
         | Ok dt => [(Z.abs (timedelta_us dt reference_dt), dt)]
         end)
      [year reference_dt - 1; year reference_dt; year reference_dt + 1] in
  match sort_by fst Z.ltb candidates with
  | [] => None
  | c :: _ => Some (snd c)
  end.

(** ** Text: the [str] methods the script calls *)

Definition code (c : ascii) : Z := Z.of_N (N_of_ascii c).
Definition chr (n : Z) : ascii := ascii_of_N (Z.to_N n).

Definition is_digit (c : ascii) : bool := (48 <=? code c) && (code c <=? 57).
Definition is_upper (c : ascii) : bool := (65 <=? code c) && (code c <=? 90).
Definition is_lower (c : ascii) : bool := (97 <=? code c) && (code c <=? 122).
Definition is_alpha (c : ascii) : bool := is_upper c || is_lower c.
(** [str.isspace] on ASCII, which is also what [\s] matches. *)
Definition is_space (c : ascii) : bool :=
  ((9 <=? code c) && (code c <=? 13)) || ((28 <=? code c) && (code c <=? 32)).
(** A word character of [\b]: alphanumeric or underscore. *)
Definition is_word (c : ascii) : bool := is_alpha c || is_digit c || (code c =? 95).

Definition to_lower (c : ascii) : ascii := if is_upper c then chr (code c + 32) else c.
Definition to_upper (c : ascii) : ascii := if is_lower c then chr (code c - 32) else c.

(** [str.title()]: a letter is upper-cased after a non-letter and
    lower-cased after a letter. *)
Fixpoint title_go (prev_cased : bool) (s : string) : string :=
  match s with
  | EmptyString => EmptyString
  | String c s' =>
      if is_alpha c
      then String (if prev_cased then to_lower c else to_upper c) (title_go true s')
      else String c (title_go false s')
  end.
Definition str_title (s : string) : string := title_go false s.

(** [s.split(sep)] for a one-character separator. *)
Fixpoint split_go (sep : ascii) (cur : string) (s : string) : list string :=
  match s with
  | EmptyString => [cur]
  | String c s' =>
      if Ascii.eqb c sep then cur :: split_go sep EmptyString s'
      else split_go sep (cur +:+ String c EmptyString) s'
  end.
Definition split (sep : ascii) (s : string) : list string := split_go sep EmptyString s.

(** [int(s)] on the digit strings the patterns capture; any other text is
    a [ValueError]. *)
Fixpoint int_go (acc : Z) (s : string) : option Z :=
  match s with
  | EmptyString => Some acc
  | String c s' => if is_digit c then int_go (acc * 10 + (code c - 48)) s' else None
  end.
Definition int (s : string) : result Z :=
  match s with
  | EmptyString => Raise ValueError
  | _ => match int_go 0 s with Some n => Ok n | None => Raise ValueError end
  end.

(** [h, m = map(int, s.split(":"))] *)
Definition int_pair (s : string) : result (Z * Z) :=
  match split ":" s with
  | [a; b] => x ← int a; y ← int b; Ok (x, y)
  | _ => Raise ValueError
  end.

(** ** More text: [str.replace] and the formats of [isoformat] *)

(** [s.replace(old, new)], for a non-empty [old]: occurrences are replaced
    left to right without overlap. [skip] counts the characters of a
    replaced occurrence still to be dropped. *)
Fixpoint replace_go (old new : string) (skip : nat) (s : string) : string :=
  match s with
  | EmptyString => EmptyString
  | String c s' =>
      match skip with
      | S k => replace_go old new k s'
      | O =>
          if String.prefix old s
          then new +:+ replace_go old new (Nat.pred (String.length old)) s'
          else String c (replace_go old new O s')
      end
  end.
Definition replace (old new s : string) : string := replace_go old new O s.

(** ["%0<width>d" % n], for [0 <= n < 10^width]. *)
Fixpoint zero_padded (width : nat) (n : Z) : string :=
  match width with
  | O => EmptyString
  | S w => zero_padded w (n / 10) +:+ String (chr (48 + n mod 10)) EmptyString
  end.

(** [dt.isoformat()] *)
Definition isoformat (dt : datetime) : string :=
  let off := Z.abs (utcoffset dt) in
  zero_padded 4 (year dt) +:+ "-" +:+ zero_padded 2 (month dt) +:+ "-"
  +:+ zero_padded 2 (day dt) +:+ "T" +:+ zero_padded 2 (hour dt) +:+ ":"
  +:+ zero_padded 2 (minute dt) +:+ ":" +:+ zero_padded 2 (second dt)
  +:+ (if microsecond dt =? 0 then "" else "." +:+ zero_padded 6 (microsecond dt))
  +:+ (if utcoffset dt <? 0 then "-" else "+")
  +:+ zero_padded 2 (off / 3600) +:+ ":" +:+ zero_padded 2 (off mod 3600 / 60)
  +:+ (if off mod 60 =? 0 then "" else ":" +:+ zero_padded 2 (off mod 60)).

(** [dt.isoformat().replace("+00:00", "Z")], the rendering used for every
    timestamp the script writes out. *)
Definition isoformat_z (dt : datetime) : string := replace "+00:00" "Z" (isoformat dt).

(** ** Truthiness *)

Definition truthy_str (s : string) : bool := negb (String.eqb s "").
Definition truthy_opt_str (s : option string) : bool := from_option truthy_str false s.
(** [a or b] on strings, and on values that are a string or [None]. *)
Definition or_str (a b : string) : string := if truthy_str a then a else b.
Definition or_opt_str (a b : option string) : option string :=
  if truthy_opt_str a then a else b.

(** ** More text: [strip], [rstrip], whitespace [split], [join] *)

Fixpoint lstrip_by (p : ascii -> bool) (s : string) : string :=
  match s with
  | EmptyString => EmptyString
  | String c s' => if p c then lstrip_by p s' else s
  end.

Fixpoint rstrip_by (p : ascii -> bool) (s : string) : string :=
  match s with
  | EmptyString => EmptyString
  | String c s' =>
      match rstrip_by p s' with
      | EmptyString => if p c then EmptyString else String c EmptyString
      | t => String c t
      end
  end.

(** [s.strip()] *)
Definition strip (s : string) : string := rstrip_by is_space (lstrip_by is_space s).
(** [s.rstrip(".")] *)
Definition rstrip_dots (s : string) : string := rstrip_by (Ascii.eqb ".") s.

(** [s.split()]: the maximal runs of non-whitespace characters. *)
Fixpoint words_go (cur : string) (s : string) : list string :=
  match s with
  | EmptyString => if truthy_str cur then [cur] else []
  | String c s' =>
      if is_space c
      then (if truthy_str cur then cur :: words_go EmptyString s'
            else words_go EmptyString s')
      else words_go (cur +:+ String c EmptyString) s'
  end.
Definition words (s : string) : list string := words_go EmptyString s.

(** [sep.join(parts)] *)
Fixpoint join (sep : string) (parts : list string) : string :=
  match parts with
  | [] => EmptyString
  | [p] => p
  | p :: rest => p +:+ sep +:+ join sep rest
  end.

(** ** Insertion-ordered dictionaries *)

Section Dict.
Context {V : Type}.

(** [d.get(k)] *)
Fixpoint dict_get (d : list (string * V)) (k : string) : option V :=
  match d with
  | [] => None
  | (k', v) :: d' => if String.eqb k' k then Some v else dict_get d' k
  end.

(** [d[k]] *)
Definition dict_item (d : list (string * V)) (k : string) : result V :=
  match dict_get d k with
  | Some v => Ok v
  | None => Raise KeyError
  end.

(** [d[k] = v]: a known key keeps its place, a new one goes last. *)
Fixpoint dict_set (d : list (string * V)) (k : string) (v : V) : list (string * V) :=
  match d with
  | [] => [(k, v)]
  | (k', v') :: d' =>
      if String.eqb k' k then (k', v) :: d' else (k', v') :: dict_set d' k v
  end.

(** [d.setdefault(k, v)], for its effect on [d]. *)
Definition dict_setdefault (d : list (string * V)) (k : string) (v : V)
  : list (string * V) :=
  match dict_get d k with
  | Some _ => d
  | None => d ++ [(k, v)]
  end.

(** [list(d.values())] *)
Definition dict_values (d : list (string * V)) : list V := d.*2.
End Dict.

(** ** Regular expressions: the fragment of [re] the patterns are written in

    A backtracking matcher with Python's priorities: alternatives left to
    right, greedy repetition, leftmost match for [search]. Repetition is only
    ever applied to a single character class in the script's patterns. *)

Inductive regex : Type :=
| Eps
| Chr (p : ascii -> bool)
| Cat (r1 r2 : regex)
| Alt (r1 r2 : regex)
| Rep (p : ascii -> bool) (lo : nat) (hi : option nat)
| Grp (n : nat) (r : regex)
| WordB.

(** Captured groups, most recent first. *)
Definition captures : Type := list (nat * string).

Definition group (m : captures) (n : nat) : option string :=
  snd <$> List.find (fun g => Nat.eqb (fst g) n) m.

Section Matcher.
Context {X : Type}.

Fixpoint rep_greedy (p : ascii -> bool) (lo : nat) (hi : option nat)
    (prev : option ascii) (s : list ascii)
    (k : option ascii -> list ascii -> option X) {struct s} : option X :=
  let stop := match lo with O => k prev s | S _ => None end in
  match hi, s with
  | Some O, _ => stop
  | _, [] => stop
  | _, c :: s' =>
      if p c then
        match rep_greedy p (Nat.pred lo) (Nat.pred <$> hi) (Some c) s' k with
        | Some x => Some x
        | None => stop
        end
      else stop
  end.

Definition at_word_boundary (prev : option ascii) (s : list ascii) : bool :=
  xorb (from_option is_word false prev) (from_option is_word false (head s)).

Fixpoint rmatch (r : regex) (prev : option ascii) (s : list ascii) (m : captures)
    (k : option ascii -> list ascii -> captures -> option X) {struct r} : option X :=
  match r with
  | Eps => k prev s m
  | Chr p =>
      match s with
      | c :: s' => if p c then k (Some c) s' m else None
      | [] => None
      end
  | Cat r1 r2 => rmatch r1 prev s m (fun prev' s' m' => rmatch r2 prev' s' m' k)
  | Alt r1 r2 =>
      match rmatch r1 prev s m k with
      | Some x => Some x
      | None => rmatch r2 prev s m k
      end
  | Rep p lo hi => rep_greedy p lo hi prev s (fun prev' s' => k prev' s' m)
  | Grp n r1 =>
      rmatch r1 prev s m (fun prev' s' m' =>
        k prev' s'
          ((n, string_of_list_ascii (take (length s - length s') s)) :: m'))
  | WordB => if at_word_boundary prev s then k prev s m else None
  end.
End Matcher.

(** [pattern.search(text)]: the captures of the leftmost match. *)
Fixpoint search_from (r : regex) (prev : option ascii) (s : list ascii)
  : option captures :=
  match rmatch r prev s [] (fun _ _ m => Some m) with
  | Some m => Some m
  | None =>
      match s with
      | [] => None
      | c :: s' => search_from r (Some c) s'
      end
  end.

Definition re_search (r : regex) (text : string) : option captures :=
  search_from r None (list_ascii_of_string text).

(** Pattern combinators. Every pattern below is compiled with
    [re.IGNORECASE], so a literal matches either case of its letters. *)
Definition ichar (c : ascii) : regex := Chr (fun x => Ascii.eqb (to_lower x) (to_lower c)).
Fixpoint lit (s : string) : regex :=
  match s with
  | EmptyString => Eps
  | String c EmptyString => ichar c
  | String c s' => Cat (ichar c) (lit s')
  end.
Definition seq_re (rs : list regex) : regex := foldr Cat Eps rs.
Fixpoint alt_re (rs : list regex) : regex :=
  match rs with
  | [] => Chr (fun _ => false)
  | [r] => r
  | r :: rs' => Alt r (alt_re rs')
  end.
Definition ws1 : regex := Rep is_space 1 None.                       (* \s+ *)
Definition digits (lo hi : nat) : regex := Rep is_digit lo (Some hi). (* \d{lo,hi} *)
Definition hhmm : regex := seq_re [digits 1 2; lit ":"; digits 2 2].  (* \d{1,2}:\d{2} *)

Definition MONTH_FULL : list (string * Z) :=
  [("January", 1); ("February", 2); ("March", 3); ("April", 4); ("May", 5);
   ("June", 6); ("July", 7); ("August", 8); ("September", 9); ("October", 10);
   ("November", 11); ("December", 12)].

Definition month_names_re : regex := alt_re (lit <$> MONTH_FULL.*1).

Definition IMPACT_RE_1 : regex :=
  seq_re [lit "On"; ws1; Grp 1 month_names_re; ws1; Grp 2 (digits 1 2); lit ","; ws1;
          Grp 3 (digits 4 4); lit ","; ws1; lit "between"; ws1; Grp 4 hhmm; ws1;
          lit "UTC"; ws1; lit "and"; ws1; Grp 5 hhmm; ws1; lit "UTC"].

Definition IMPACT_RE_2 : regex :=
  seq_re [lit "between"; ws1; Grp 1 hhmm; ws1; lit "UTC"; ws1; lit "and"; ws1;
          Grp 2 hhmm; ws1; lit "UTC,"; ws1; lit "on"; ws1; Grp 3 month_names_re; ws1;
          Grp 4 (digits 1 2); lit ","; ws1; Grp 5 (digits 4 4)].

(** [match.group(n)] handed to a [str] operation. *)
Definition group_str (m : captures) (n : nat) : result string :=
  match group m n with
  | Some s => Ok s
  | None => Raise TypeError
  end.

(** ** [parse_impact_window] *)

(** [dt + timedelta(days=1)] *)
Definition add_one_day (dt : datetime) : result datetime :=
  let with_date y m d :=
    mk_datetime y m d (hour dt) (minute dt) (second dt) (microsecond dt) (utcoffset dt) in
  if day dt <? days_in_month (year dt) (month dt)
  then Ok (with_date (year dt) (month dt) (day dt + 1))
  else if month dt <? 12 then Ok (with_date (year dt) (month dt + 1) 1)
  else if year dt <? MAXYEAR then Ok (with_date (year dt + 1) 1 1)
  else Raise OverflowError.

(** The lines both templates share once month, day and year are known. *)
Definition build_window (year month day : Z) (start_time end_time message : string)
  : result (datetime * datetime * string) :=
  '(start_hour, start_min) ← int_pair start_time;
  '(end_hour, end_min) ← int_pair end_time;
  start_at ← datetime_utc year month day start_hour start_min;
  end_at ← datetime_utc year month day end_hour end_min;
  end_at ← (if dt_leb end_at start_at then add_one_day end_at else Ok end_at);
  Ok (start_at, end_at, message).

Fixpoint parse_impact_window (messages : list string)
  : result (option (datetime * datetime * string)) :=
  match messages with
  | [] => Ok None
  | message :: rest =>
      match re_search IMPACT_RE_1 message with
      | Some m =>
          month ← (name ← group_str m 1; dict_item MONTH_FULL (str_title name));
          day ← (g ← group_str m 2; int g);
          year ← (g ← group_str m 3; int g);
          start_time ← group_str m 4;
          end_time ← group_str m 5;
          Some <$> build_window year month day start_time end_time message
      | None =>
          match re_search IMPACT_RE_2 message with
          | Some m =>
              start_time ← group_str m 1;
              end_time ← group_str m 2;
              month ← (name ← group_str m 3; dict_item MONTH_FULL (str_title name));
              day ← (g ← group_str m 4; int g);
              year ← (g ← group_str m 5; int g);
              Some <$> build_window year month day start_time end_time message
          | None => parse_impact_window rest
          end
      end
  end.

(** The datetimes [infer_year] chooses among: one per year of the window
    around the reference for which the calendar has the requested day. *)
Definition year_candidate (reference_dt : datetime) (month day hour minute : Z)
    (dt : datetime) : Prop :=
  exists y : Z,
    In y [year reference_dt - 1; year reference_dt; year reference_dt + 1]
    /\ datetime_utc y month day hour minute = Ok dt.

(** One civil day as a timedelta, in microseconds. *)
Definition one_day_us : Z := 86400 * 1000000.

(** What [parse_impact_window] returned in terms of what it parsed:
    [start_at] and the end [end0] as written, both on the stated date, and
    the end it reports. *)
Definition window_rollover (start_at end0 end_at : datetime) : Prop :=
  (year end0, month end0, day end0) = (year start_at, month start_at, day start_at)
  /\ if dt_leb end0 start_at
     then add_one_day end0 = Ok end_at
          /\ instant_us end_at = instant_us end0 + one_day_us
     else end_at = end0.

(** ** The data model *)

(** One status update of an incident, as [parse_updates] builds it. The
    tests build updates without ["_order"]. *)
Module Update.
Record t : Type := mk {
  at_ : datetime;
  status : string;
  message : string;
  _order : option nat
}.
End Update.

(** A raw feed entry, as [parse_atom] returns it. *)
Module Entry.
Record t : Type := mk {
  id : string;
  entry_id : string;
  title : string;
  url : option string;
  published_at : option datetime;
  updated_at : option datetime;
  updates : list Update.t
}.
End Entry.

(** A merged incident: the working state of the merge engine. *)
Module Merged.
Record t : Type := mk {
  id : string;
  entry_id : string;
  title : string;
  url : option string;
  published_at : option datetime;
  updated_at : option datetime;
  updates : list (string * Update.t)
}.
End Merged.

(** ** [update_key] and [merge_incident] *)

Definition update_key (update : Update.t) : string :=
  isoformat_z (Update.at_ update) +:+ "|" +:+ Update.status update
  +:+ "|" +:+ Update.message update.

(** [x and (cur is None or test(x, cur))], for [x] and [cur] a datetime or
    [None]; a datetime is always truthy. *)
Definition present_and_beats (test : datetime -> datetime -> bool)
    (x cur : option datetime) : bool :=
  match x, cur with
  | Some _, None => true
  | Some a, Some b => test a b
  | None, _ => false
  end.

Definition merge_incident (existing : option Merged.t) (incoming : Entry.t) : Merged.t :=
  match existing with
  | None =>
      Merged.mk (Entry.id incoming) (Entry.entry_id incoming) (Entry.title incoming)
        (Entry.url incoming) (Entry.published_at incoming) (Entry.updated_at incoming)
        (foldl (fun d u => dict_set d (update_key u) u) [] (Entry.updates incoming))
  | Some existing =>
      let published_at :=
        if present_and_beats dt_ltb (Entry.published_at incoming)
             (Merged.published_at existing)
        then Entry.published_at incoming
        else Merged.published_at existing in
      let newer :=
        present_and_beats (fun a b => dt_ltb b a) (Entry.updated_at incoming)
          (Merged.updated_at existing) in
      let updated_at :=
        if newer then Entry.updated_at incoming else Merged.updated_at existing in
      let title :=
        if newer then or_str (Entry.title incoming) (Merged.title existing)
        else Merged.title existing in
      let url :=
        if newer then or_opt_str (Entry.url incoming) (Merged.url existing)
        else Merged.url existing in
      let entry_id :=
        if newer then or_str (Entry.entry_id incoming) (Merged.entry_id existing)
        else Merged.entry_id existing in
      let updates :=
        foldl (fun d u => dict_setdefault d (update_key u) u)
          (Merged.updates existing) (Entry.updates incoming) in
      Merged.mk (Merged.id existing) entry_id title url published_at updated_at updates
  end.

(** ** Timestamps as the script writes them out

    Finalized incidents carry their timestamps as text, the [isoformat_z]
    rendering of a datetime, and [parse_iso8601] reads such text back. The
    embedding keeps the datetime the text renders; [iso_string] is the text
    itself, needed where the script compares or prints it. *)
Record iso_text : Type := Iso { iso_dt : datetime }.

(** [dt.isoformat().replace("+00:00", "Z")] *)
Definition render (dt : datetime) : iso_text := Iso dt.
Definition iso_string (t : iso_text) : string := isoformat_z (iso_dt t).
(** [parse_iso8601(t)], that is [datetime.fromisoformat(t.replace("Z", "+00:00"))] *)
Definition parse_iso8601 (t : iso_text) : datetime := iso_dt t.

(** An update of a finalized incident: ["at"] rendered, ["_order"] popped. *)
Module FinalUpdate.
Record t : Type := mk {
  at_ : iso_text;
  status : string;
  message : string
}.
End FinalUpdate.

Module ImpactWindow.
Record t : Type := mk {
  start_at : iso_text;
  end_at : iso_text;
  source : string;
  context : string
}.
End ImpactWindow.

(** A finalized incident. The last four fields are the keys enrichment and
    inference may add later; [None] is a key that is missing or null. *)
Module Finalized.
Record t : Type := mk {
  id : string;
  entry_id : string;
  title : string;
  url : option string;
  published_at : option iso_text;
  updated_at : option iso_text;
  status_sequence : list string;
  started_at : option iso_text;
  resolved_at : option iso_text;
  impact_window : option ImpactWindow.t;
  downtime_start : option iso_text;
  downtime_end : option iso_text;
  duration_minutes : option Z;
  updates : list FinalUpdate.t;
  impact : option string;
  components : option (list string);
  components_source : option string;
  components_confidence : option (list (string * Q))
}.
End Finalized.

(** ** [finalize_incident] *)

Definition STATUS_ORDER : list (string * Z) :=
  [("Investigating", 0); ("Identified", 1); ("Monitoring", 2); ("Update", 3);
   ("Resolved", 4)].

(** [STATUS_ORDER.get(status, 99)] *)
Definition status_rank (status : string) : Z :=
  default 99 (dict_get STATUS_ORDER status).

(** The sort key [(item["at"], rank, item["message"])] and Python's [<] on
    such tuples: the first component that differs decides. *)
Definition sort_key : Type := datetime * Z * string.

Definition update_sort_key (item : Update.t) : sort_key :=
  (Update.at_ item, status_rank (Update.status item), Update.message item).

Definition sort_key_lt (a b : sort_key) : bool :=
  let '(ta, ra, ma) := a in
  let '(tb, rb, mb) := b in
  if negb (instant_us ta =? instant_us tb) then dt_ltb ta tb
  else if negb (ra =? rb) then ra <? rb
  else String.ltb ma mb.

Definition finalize_update (update : Update.t) : FinalUpdate.t :=
  FinalUpdate.mk (render (Update.at_ update)) (Update.status update)
    (Update.message update).

(** [int((end_dt - start_dt).total_seconds() // 60)]: the floor of the
    elapsed minutes. The float quotient is exact at this granularity for
    spans below 2^33 seconds, some 270 years. *)
Definition minutes_between (start_dt end_dt : datetime) : Z :=
  timedelta_us end_dt start_dt / (60 * 1000000).

Definition finalize_incident (incident : Merged.t) : result Finalized.t :=
  let updates_by_key := Merged.updates incident in
  let ordered := sort_by update_sort_key sort_key_lt (dict_values updates_by_key) in
  let ordered := finalize_update <$> ordered in
  let published_str := render <$> Merged.published_at incident in
  let updated_str := render <$> Merged.updated_at incident in
  let statuses := FinalUpdate.status <$> ordered in
  let started_at :=
    FinalUpdate.at_ <$>
      List.find (fun u => String.eqb (FinalUpdate.status u) "Investigating") ordered in
  let started_at :=
    match started_at with
    | Some t => Some t
    | None => FinalUpdate.at_ <$> head ordered
    end in
  let resolved_at :=
    FinalUpdate.at_ <$>
      List.find (fun u => String.eqb (FinalUpdate.status u) "Resolved") (rev ordered) in
  let resolved_at :=
    match resolved_at with
    | Some t => Some t
    | None => FinalUpdate.at_ <$> last ordered
    end in
  impact ← parse_impact_window (FinalUpdate.message <$> ordered);
  let impact_window :=
    match impact with
    | Some (start_at, end_at, context) =>
        Some (ImpactWindow.mk (render start_at) (render end_at) "postmortem" context)
    | None => None
    end in
  let downtime_start :=
    match impact_window with
    | Some w => Some (ImpactWindow.start_at w)
    | None => started_at
    end in
  let downtime_end :=
    match impact_window with
    | Some w => Some (ImpactWindow.end_at w)
    | None => resolved_at
    end in
  let duration_minutes :=
    match downtime_start, downtime_end with
    | Some s, Some e => Some (minutes_between (parse_iso8601 s) (parse_iso8601 e))
    | _, _ => None
    end in
  Ok (Finalized.mk (Merged.id incident) (Merged.entry_id incident)
        (Merged.title incident) (Merged.url incident) published_str updated_str
        statuses started_at resolved_at impact_window downtime_start downtime_end
        duration_minutes ordered None None None None).

(** The order the specification gives for finalized updates: timestamp,
    then status rank, then message text. *)
Definition update_order_le (a b : FinalUpdate.t) : Prop :=
  let ta := instant_us (parse_iso8601 (FinalUpdate.at_ a)) in
  let tb := instant_us (parse_iso8601 (FinalUpdate.at_ b)) in
  let ra := status_rank (FinalUpdate.status a) in
  let rb := status_rank (FinalUpdate.status b) in
  ta < tb
  \/ (ta = tb
      /\ (ra < rb
          \/ (ra = rb
              /\ String.leb (FinalUpdate.message a) (FinalUpdate.message b) = true))).

(** ** [datetime.fromisoformat], [parse_datetime_arg]

    A datetime read from text carries an offset only when the text has one;
    otherwise it is naive: civil fields and no timezone. *)
Inductive parsed_datetime : Type :=
| Aware (dt : datetime)
| Naive (year month day hour minute second microsecond : Z).

(** A run of decimal digits of the given width. *)
Definition int_digits (width : nat) (s : list ascii) : result Z :=
  if Nat.eqb (length s) width && forallb is_digit s
  then Ok (fold_left (fun acc c => acc * 10 + (code c - 48)) s 0)
  else Raise ValueError.

(** [HH], [HH:MM], [HH:MM:SS], [HH:MM:SS.fff] or [HH:MM:SS.ffffff]: the
    time and offset spellings of [isoformat()]. *)
Definition parse_hh_mm_ss_ff (t : list ascii) : result (Z * Z * Z * Z) :=
  let colon c := Ascii.eqb c ":" in
  match t with
  | [h1; h2] => h ← int_digits 2 [h1; h2]; Ok (h, 0, 0, 0)
  | [h1; h2; c1; m1; m2] =>
      if colon c1
      then h ← int_digits 2 [h1; h2]; m ← int_digits 2 [m1; m2]; Ok (h, m, 0, 0)
      else Raise ValueError
  | h1 :: h2 :: c1 :: m1 :: m2 :: c2 :: s1 :: s2 :: frac =>
      if colon c1 && colon c2
      then
        h ← int_digits 2 [h1; h2];
        m ← int_digits 2 [m1; m2];
        sec ← int_digits 2 [s1; s2];
        match frac with
        | [] => Ok (h, m, sec, 0)
        | dot :: ds =>
            if negb (Ascii.eqb dot ".") then Raise ValueError
            else if Nat.eqb (length ds) 3
            then f ← int_digits 3 ds; Ok (h, m, sec, f * 1000)
            else f ← int_digits 6 ds; Ok (h, m, sec, f)
        end
      else Raise ValueError
  | _ => Raise ValueError
  end.

(** Where the offset starts: after the first [-] if there is one, else
    after the first [+]. *)
Fixpoint split_at_char (c : ascii) (t : list ascii) : option (list ascii * list ascii) :=
  match t with
  | [] => None
  | x :: t' =>
      if Ascii.eqb x c then Some ([], t')
      else '(before, after) ← split_at_char c t'; Some (x :: before, after)
  end.

(** [datetime.fromisoformat(text)] on the extended format that
    [isoformat()] writes and every Python 3 reads: [YYYY-MM-DD], then
    perhaps one separator character, a time and an offset [+HH:MM] or
    [+HH:MM:SS]. Other spellings, and offsets with a fraction of a second,
    are reported as [ValueError]. *)
Definition fromisoformat (text : string) : result parsed_datetime :=
  let cs := list_ascii_of_string text in
  match cs with
  | y1 :: y2 :: y3 :: y4 :: d1 :: mo1 :: mo2 :: d2 :: dd1 :: dd2 :: rest =>
      if negb (Ascii.eqb d1 "-" && Ascii.eqb d2 "-") then Raise ValueError else
      y ← int_digits 4 [y1; y2; y3; y4];
      mo ← int_digits 2 [mo1; mo2];
      d ← int_digits 2 [dd1; dd2];
      let tstr := tail rest in
      let '(timestr, tz) :=
        match split_at_char "-" tstr, split_at_char "+" tstr with
        | Some (before, after), _ => (before, Some (-1, after))
        | None, Some (before, after) => (before, Some (1, after))
        | None, None => (tstr, None)
        end in
      '(h, mi, sec, us) ←
        match tstr with
        | [] => Ok (0, 0, 0, 0)
        | [_] => Raise ValueError
        | _ => parse_hh_mm_ss_ff timestr
        end;
      if negb (check_date_fields y mo d && check_time_fields h mi sec us)
      then Raise ValueError else
      match tz with
      | None => Ok (Naive y mo d h mi sec us)
      | Some (sign, tzstr) =>
          if negb (Nat.eqb (length tzstr) 5 || Nat.eqb (length tzstr) 8)
          then Raise ValueError else
          '(oh, om, os, _) ← parse_hh_mm_ss_ff tzstr;
          let off := oh * 3600 + om * 60 + os in
          if 86400 <=? off then Raise ValueError
          else Ok (Aware (mk_datetime y mo d h mi sec us (sign * off)))
      end
  | _ => Raise ValueError
  end.

(** [parse_iso8601] on text that did not come out of [isoformat_z]: a
    command-line argument or a feed field. *)
Definition parse_iso8601_str (value : string) : result parsed_datetime :=
  fromisoformat (replace "Z" "+00:00" value).

Definition is_dash_at (n : nat) (s : string) : bool :=
  match String.get n s with
  | Some c => Ascii.eqb c "-"
  | None => false
  end.

Definition parse_datetime_arg (value : option string) : result (option parsed_datetime) :=
  match value with
  | None => Ok None
  | Some value =>
      let value := strip value in
      if negb (truthy_str value) then Ok None
      else
        let value :=
          if Nat.eqb (String.length value) 10 && is_dash_at 4 value && is_dash_at 7 value
          then value +:+ "T00:00:00Z"
          else value in
        Some <$> parse_iso8601_str value
  end.

(** ** [overlaps_window] *)

(** [a or b] on values that are a rendered timestamp or [None]. *)
Definition or_ts (a b : option iso_text) : option iso_text :=
  match a with
  | Some t => Some t
  | None => b
  end.

(** [a < b] and [a > b] for a timestamp [a] of the incident, which is aware,
    and a bound [b]: an aware and a naive datetime do not compare. *)
Definition lt_bound (a : datetime) (b : parsed_datetime) : result bool :=
  match b with
  | Aware dt => Ok (dt_ltb a dt)
  | Naive _ _ _ _ _ _ _ => Raise TypeError
  end.

Definition gt_bound (a : datetime) (b : parsed_datetime) : result bool :=
  match b with
  | Aware dt => Ok (dt_ltb dt a)
  | Naive _ _ _ _ _ _ _ => Raise TypeError
  end.

Definition overlaps_window (incident : Finalized.t)
    (since_dt until_dt : option parsed_datetime) : result bool :=
  match since_dt, until_dt with
  | None, None => Ok true
  | _, _ =>
      let start := or_ts (Finalized.downtime_start incident)
                         (Finalized.published_at incident) in
      let end_ := or_ts (or_ts (Finalized.downtime_end incident)
                               (Finalized.updated_at incident)) start in
      match start with
      | None => Ok false
      | Some start =>
          let start_dt := parse_iso8601 start in
          let end_dt := from_option parse_iso8601 start_dt end_ in
          ends_before ← from_option (lt_bound end_dt) (Ok false) since_dt;
          if ends_before : bool then Ok false
          else
            starts_after ← from_option (gt_bound start_dt) (Ok false) until_dt;
            if starts_after : bool then Ok false else Ok true
      end
  end.

(** The bounds the window filter compares, in the specification's words:
    the start is the downtime start, else the published timestamp; the end
    is the downtime end, else the updated timestamp, else the start. *)
Definition window_start (incident : Finalized.t) : option iso_text :=
  match Finalized.downtime_start incident with
  | Some t => Some t
  | None => Finalized.published_at incident
  end.

Definition window_end (incident : Finalized.t) (start : iso_text) : iso_text :=
  match Finalized.downtime_end incident, Finalized.updated_at incident with
  | Some t, _ => t
  | None, Some t => t
  | None, None => start
  end.

(** ** More of [re]: matches with their span, [finditer] and [sub] *)

(** A match: where it starts, how many characters it spans, its groups. *)
Record re_match : Type := mk_match {
  m_start : nat;
  m_len : nat;
  m_groups : captures
}.

Definition match_here (r : regex) (prev : option ascii) (s : list ascii)
  : option (captures * nat) :=
  rmatch r prev s [] (fun _ rest m => Some (m, (length s - length rest)%nat)).

(** [pattern.search(text)] with [match.start()] and [match.end()]. *)
Fixpoint search_span_from (r : regex) (pos : nat) (prev : option ascii) (s : list ascii)
  : option re_match :=
  match match_here r prev s with
  | Some (m, n) => Some (mk_match pos n m)
  | None =>
      match s with
      | [] => None
      | c :: s' => search_span_from r (S pos) (Some c) s'
      end
  end.

Definition re_search_span (r : regex) (text : string) : option re_match :=
  search_span_from r O None (list_ascii_of_string text).

(** [pattern.finditer(text)]: the matches from left to right, none
    overlapping. [skip] counts the characters of the last match still to be
    passed over. *)
Fixpoint finditer_go (r : regex) (skip : nat) (prev : option ascii) (s : list ascii)
  : list captures :=
  match s with
  | [] =>
      match skip, match_here r prev [] with
      | O, Some (m, _) => [m]
      | _, _ => []
      end
  | c :: s' =>
      match skip with
      | S k => finditer_go r k (Some c) s'
      | O =>
          match match_here r prev s with
          | Some (m, n) => m :: finditer_go r (Nat.pred n) (Some c) s'
          | None => finditer_go r O (Some c) s'
          end
      end
  end.

Definition re_finditer (r : regex) (text : string) : list captures :=
  finditer_go r O None (list_ascii_of_string text).

(** [pattern.sub(repl, text)] for a literal replacement. *)
Fixpoint sub_go (r : regex) (repl : string) (skip : nat) (prev : option ascii)
    (s : list ascii) : string :=
  match s with
  | [] => EmptyString
  | c :: s' =>
      match skip with
      | S k => sub_go r repl k (Some c) s'
      | O =>
          match match_here r prev s with
          | Some (_, S n) => repl +:+ sub_go r repl n (Some c) s'
          | _ => String c (sub_go r repl O (Some c) s')
          end
      end
  end.

Definition re_sub (r : regex) (repl text : string) : string :=
  sub_go r repl O None (list_ascii_of_string text).

(** ** The detail-page extractors *)

(** A double or a single quote. *)
Definition is_quote (c : ascii) : bool := (code c =? 34) || (code c =? 39).

(** [class=], a quote, group 1: one or more characters that are no quote,
    a quote. *)
Definition CLASS_ATTR_RE : regex :=
  seq_re [lit "class="; Chr is_quote; Grp 1 (Rep (fun c => negb (is_quote c)) 1 None);
          Chr is_quote].

(** [<[^>]+>] *)
Definition STRIP_TAGS_RE : regex :=
  seq_re [lit "<"; Rep (fun c => negb (Ascii.eqb c ">")) 1 None; lit ">"].

Definition ws0 : regex := Rep is_space 0 None.                       (* \s* *)
Definition not_dot1 : regex := Rep (fun c => negb (Ascii.eqb c ".")) 1 None. (* [^.]+ *)
Definition opt_char (c : ascii) : regex :=                            (* c? *)
  Rep (fun x => Ascii.eqb (to_lower x) (to_lower c)) 0 (Some 1%nat).

Definition COMPONENTS_RE : regex :=
  seq_re [lit "This incident affected:"; ws0; Grp 1 not_dot1].
Definition COMPONENTS_ALT_RE : regex :=
  seq_re [lit "Affected component"; opt_char "s"; lit ":"; ws0; Grp 1 not_dot1].
Definition COMPONENTS_MAINT_RE : regex :=
  seq_re [lit "This scheduled maintenance affected:"; ws0; Grp 1 not_dot1].

Definition extract_impact_from_html (html_text : string) : option string :=
  let classes_of m := words (default "" (group m 1)) in
  let impact_of classes :=
    (fun cls => replace "impact-" "" cls)
      <$> List.find (fun cls => String.prefix "impact-" cls) classes in
  head (omap (fun m => impact_of (classes_of m)) (re_finditer CLASS_ATTR_RE html_text)).

(** ** The world the two command-line tools act on *)

Module CacheEntry.
Record t : Type := mk {
  impact : option string;
  components : option (list string);
  fetched_at : option string
}.
End CacheEntry.

(** What may be found at the path of the impact cache. *)
Inductive cache_file : Type :=
| NoFile
| Unreadable                                          (* OSError or not JSON *)
| Wrapped (items : gmap string CacheEntry.t)          (* version 1, with its items *)
| Flat (items : gmap string CacheEntry.t)             (* the legacy mapping *)
| NotAnObject.                                        (* JSON, but no object *)

(** A segment row and a downtime-window row of the CSV outputs. *)
Module Segment.
Record t : Type := mk {
  incident_id : string;
  start_at : iso_text;
  end_at : iso_text;
  status : string
}.
End Segment.

Module WindowRow.
Record t : Type := mk {
  incident_id : string;
  downtime_start : iso_text;
  downtime_end : iso_text;
  duration_minutes : option Z;
  source : string;
  title : string;
  impact : option string
}.
End WindowRow.

(** An audit record of the evaluation tool. *)
Module AuditRecord.
Record t : Type := mk {
  id : string;
  url : option string;
  title : string;
  components : list string;
  components_confidence : list (string * option Q);
  evidence : list (string * option string)
}.
End AuditRecord.

(** The content of a file a tool writes, before serialization. *)
Inductive output : Type :=
| IncidentsJson (incidents : list Finalized.t)
| IncidentsJsonl (incidents : list Finalized.t)
| IncidentJson (incident : Finalized.t)
| SegmentsCsv (rows : list Segment.t)
| WindowsCsv (rows : list WindowRow.t)
| AuditJsonl (records : list AuditRecord.t).

Record world : Type := mk_world {
  cache_at_path : cache_file;            (* the file at the impact cache path *)
  requests : list string;                (* URLs asked of the network, in order *)
  sleeps : nat;                          (* calls of [time.sleep] *)
  model_calls : list string;             (* texts handed to the extraction model *)
  written : list (string * output);      (* files written, in order *)
  stdout : list string;
  stderr : list string
}.

(** Computations that act on the world and may raise. *)
Definition M (A : Type) : Type := world -> result A * world.

#[export] Instance M_ret : MRet M := fun _ a w => (Ok a, w).
#[export] Instance M_bind : MBind M := fun _ _ f m w =>
  match m w with
  | (Ok a, w') => f a w'
  | (Raise e, w') => (Raise e, w')
  end.

Definition raise {A : Type} (e : exn) : M A := fun w => (Raise e, w).
Definition lift {A : Type} (r : result A) : M A := fun w => (r, w).

Definition set_cache (f : cache_file) : M unit := fun w =>
  (Ok tt, mk_world f (requests w) (sleeps w) (model_calls w) (written w) (stdout w)
            (stderr w)).
Definition log_request (url : string) : M unit := fun w =>
  (Ok tt, mk_world (cache_at_path w) (requests w ++ [url]) (sleeps w) (model_calls w)
            (written w) (stdout w) (stderr w)).
Definition sleep : M unit := fun w =>
  (Ok tt, mk_world (cache_at_path w) (requests w) (S (sleeps w)) (model_calls w)
            (written w) (stdout w) (stderr w)).
Definition log_model_call (text : string) : M unit := fun w =>
  (Ok tt, mk_world (cache_at_path w) (requests w) (sleeps w) (model_calls w ++ [text])
            (written w) (stdout w) (stderr w)).
Definition write_file (path : string) (content : output) : M unit := fun w =>
  (Ok tt, mk_world (cache_at_path w) (requests w) (sleeps w) (model_calls w)
            (written w ++ [(path, content)]) (stdout w) (stderr w)).
Definition print (line : string) : M unit := fun w =>
  (Ok tt, mk_world (cache_at_path w) (requests w) (sleeps w) (model_calls w) (written w)
            (stdout w ++ [line]) (stderr w)).
Definition print_err (line : string) : M unit := fun w =>
  (Ok tt, mk_world (cache_at_path w) (requests w) (sleeps w) (model_calls w) (written w)
            (stdout w) (stderr w ++ [line])).

(** ** The impact cache: [load_impact_cache], [save_impact_cache] *)

Definition load_impact_cache (path : string) : M (gmap string CacheEntry.t) := fun w =>
  if negb (truthy_str path) then (Ok ∅, w)
  else
    match cache_at_path w with
    | Wrapped items => (Ok items, w)
    | Flat items => (Ok items, w)
    | NoFile | Unreadable | NotAnObject => (Ok ∅, w)
    end.

(** [os.path.dirname(path)] is empty exactly when [path] has no slash, and
    [os.makedirs] refuses the empty path. *)
Definition has_slash (path : string) : bool :=
  existsb (Ascii.eqb "/") (list_ascii_of_string path).

Definition save_impact_cache (path : string) (cache : gmap string CacheEntry.t) : M unit :=
  if negb (truthy_str path) then mret tt
  else if negb (has_slash path) then raise FileNotFoundError
  else set_cache (Wrapped cache).

(** ** The detail page: [extract_components_from_html], [enrich_impacts] *)

Section Enrichment.
(** [html.unescape], the network behind [fetch_url] (the page or the error
    it answers with, given the requests made before), and the clock. *)
Variable html_unescape : string -> string.
Variable network : list string -> string -> result string.
Variable utcnow : nat -> datetime.

Definition extract_components_from_html (html_text : string) : option (list string) :=
  let text := re_sub STRIP_TAGS_RE " " html_text in
  let text := html_unescape text in
  let text := join " " (words text) in
  let found :=
    match re_search COMPONENTS_RE text, re_search COMPONENTS_MAINT_RE text with
    | Some m, _ => Some m
    | None, Some m => Some m
    | None, None => re_search COMPONENTS_ALT_RE text
    end in
  match found with
  | None => None
  | Some m =>
      let raw := rstrip_dots (strip (default "" (group m 1))) in
      let raw := replace " and " ", " raw in
      let parts := List.filter truthy_str (strip <$> split "," raw) in
      match parts with
      | [] => None
      | _ => Some parts
      end
  end.

Definition fetch_url (url : string) : M string := fun w =>
  let '(_, w') := log_request url w in
  (network (requests w) url, w').

(** A value of the cache or of a page that is a non-empty string, and one
    that is a non-empty list. *)
Definition truthy_list {A : Type} (l : option (list A)) : bool :=
  match l with
  | Some (_ :: _) => true
  | _ => false
  end.

Definition with_impact (incident : Finalized.t) (impact : option string) : Finalized.t :=
  Finalized.mk (Finalized.id incident) (Finalized.entry_id incident)
    (Finalized.title incident) (Finalized.url incident) (Finalized.published_at incident)
    (Finalized.updated_at incident) (Finalized.status_sequence incident)
    (Finalized.started_at incident) (Finalized.resolved_at incident)
    (Finalized.impact_window incident) (Finalized.downtime_start incident)
    (Finalized.downtime_end incident) (Finalized.duration_minutes incident)
    (Finalized.updates incident) impact (Finalized.components incident)
    (Finalized.components_source incident) (Finalized.components_confidence incident).

Definition with_components (incident : Finalized.t) (components : option (list string))
  : Finalized.t :=
  Finalized.mk (Finalized.id incident) (Finalized.entry_id incident)
    (Finalized.title incident) (Finalized.url incident) (Finalized.published_at incident)
    (Finalized.updated_at incident) (Finalized.status_sequence incident)
    (Finalized.started_at incident) (Finalized.resolved_at incident)
    (Finalized.impact_window incident) (Finalized.downtime_start incident)
    (Finalized.downtime_end incident) (Finalized.duration_minutes incident)
    (Finalized.updates incident) (Finalized.impact incident) components
    (Finalized.components_source incident) (Finalized.components_confidence incident).

(** [if impact: incident["impact"] = impact], and the same for components. *)
Definition apply_impact (impact : option string) (incident : Finalized.t) : Finalized.t :=
  if truthy_opt_str impact then with_impact incident impact else incident.
Definition apply_components (components : option (list string)) (incident : Finalized.t)
  : Finalized.t :=
  if truthy_list components then with_components incident components else incident.

(** The test that ends an iteration without a fetch:
    [cached and cached.get("impact") and cached.get("components") is not None]. *)
Definition cache_complete (cached : option CacheEntry.t) : bool :=
  match cached with
  | Some entry =>
      truthy_opt_str (CacheEntry.impact entry) && bool_decide (is_Some (CacheEntry.components entry))
  | None => false
  end.

(** The state of the loop of [enrich_impacts]: the incident just treated,
    the cache and the [updated] flag. *)
Definition enrich_incident (cache_path : string) (delay_seconds : Q)
    (incident : Finalized.t) (cache : gmap string CacheEntry.t) (updated : bool)
  : M (Finalized.t * gmap string CacheEntry.t * bool) :=
  match Finalized.url incident with
  | None => mret (incident, cache, updated)
  | Some url =>
      if negb (truthy_str url) then mret (incident, cache, updated)
      else
        let cached := cache !! url in
        let incident :=
          match cached with
          | Some entry =>
              apply_components (CacheEntry.components entry)
                (apply_impact (CacheEntry.impact entry) incident)
          | None => incident
          end in
        if cache_complete cached then mret (incident, cache, updated)
        else fun w =>
          match fetch_url url w with
          | (Raise URLError, w') => (Ok (incident, cache, updated), w')
          | (Raise e, w') => (Raise e, w')
          | (Ok html_text, w') =>
              let impact := extract_impact_from_html html_text in
              let components := extract_components_from_html html_text in
              let incident := apply_components components (apply_impact impact incident) in
              let fetched_at := isoformat_z (utcnow (length (requests w))) in
              let cache := <[url := CacheEntry.mk impact components (Some fetched_at)]> cache in
              (save_impact_cache cache_path cache ;;
               (if Qeq_bool delay_seconds 0 then mret tt else sleep) ;;
               mret (incident, cache, true)) w'
          end
  end.

Fixpoint enrich_loop (cache_path : string) (delay_seconds : Q)
    (incidents : list Finalized.t) (cache : gmap string CacheEntry.t) (updated : bool)
  : M (list Finalized.t * gmap string CacheEntry.t * bool) :=
  match incidents with
  | [] => mret ([], cache, updated)
  | incident :: rest =>
      '(incident, cache, updated) ←
        enrich_incident cache_path delay_seconds incident cache updated;
      '(rest, cache, updated) ← enrich_loop cache_path delay_seconds rest cache updated;
      mret (incident :: rest, cache, updated)
  end.

(** [enrich_impacts]; the incidents it returns are the incidents it was
    given, with the keys it set on them. *)
Definition enrich_impacts (incidents : list Finalized.t) (cache_path : string)
    (delay_seconds : Q) : M (list Finalized.t) :=
  cache ← load_impact_cache cache_path;
  '(incidents, cache, updated) ←
    enrich_loop cache_path delay_seconds incidents cache false;
  (if updated : bool then save_impact_cache cache_path cache else mret tt) ;;
  mret incidents.
End Enrichment.

(** ** Component inference: schema, aliases, selection, corroboration *)

Definition COMPONENT_SCHEMA : list (string * string) :=
  [("Git Operations", "Git operations like git push, pull, clone, or fetch failures.");
   ("Webhooks", "Webhook delivery failures, delays, or retries.");
   ("API Requests", "API errors, rate limits, or API request failures.");
   ("Issues", "Issues creation, viewing, or updates.");
   ("Pull Requests", "Pull request creation, merging, or viewing.");
   ("Actions", "GitHub Actions workflows, runners, or build execution.");
   ("Packages", "Package registry, container registry, or package downloads.");
   ("Pages", "GitHub Pages builds, publishing, or access.");
   ("Codespaces", "Codespaces creation, access, or performance.");
   ("Copilot", "GitHub Copilot availability, suggestions, or auth.")].

(** [\b ... \b] around a sequence of pieces. *)
Definition word_re (pieces : list regex) : regex :=
  seq_re ([WordB] ++ pieces ++ [WordB])%list.

Definition COMPONENT_ALIASES : list (string * list regex) :=
  [("Git Operations",
    [word_re [lit "git operation"; opt_char "s"];
     word_re [lit "git "; Grp 1 (alt_re (lit <$> ["push"; "pull"; "fetch"; "clone"]))];
     word_re [lit "git"]]);
   ("Webhooks", [word_re [lit "webhook"; opt_char "s"]]);
   ("API Requests",
    [word_re [lit "api request"; opt_char "s"]; word_re [lit "github api"];
     word_re [lit "rest api"]; word_re [lit "graphql"]; word_re [lit "api rate"]]);
   ("Issues",
    [word_re [lit "github issues"]; word_re [lit "issues and pull requests"];
     word_re [lit "issue creation"]; word_re [lit "issue comment"; opt_char "s"];
     word_re [lit "issues tab"]; word_re [lit "issues page"]]);
   ("Pull Requests",
    [word_re [lit "pull request"; opt_char "s"]; word_re [lit "pr"; opt_char "s"];
     word_re [lit "merge ";
              Grp 1 (Alt (lit "pull") (seq_re [lit "request"; opt_char "s"]))]]);
   ("Actions",
    [word_re [lit "github actions"]; word_re [lit "workflow run"; opt_char "s"];
     word_re [lit "workflow"]; word_re [lit "actions"]]);
   ("Packages",
    [word_re [lit "package registry"]; word_re [lit "container registry"];
     word_re [lit "package"; opt_char "s"]]);
   ("Pages",
    [word_re [lit "github pages"]; word_re [lit "pages build"]; word_re [lit "pages"]]);
   ("Codespaces", [word_re [lit "codespace"; opt_char "s"]]);
   ("Copilot", [word_re [lit "copilot"]])].

(** What the extraction model answers for one label: the matched spans,
    each with its confidence when the model reports one. *)
Module Span.
Record t : Type := mk {
  text : string;
  confidence : option Q
}.
End Span.

(** [max(a, b)] on floats: [b] only when it is greater. *)
Definition float_max (a b : Q) : Q := if Qle_bool b a then a else b.

(** The score of a label: the greatest confidence among its spans, 1.0 when
    no span reports one. *)
Definition label_score (items : list Span.t) : Q :=
  let max_conf :=
    foldl (fun max_conf item =>
             match Span.confidence item with
             | Some c => Some (float_max (default 0%Q max_conf) c)
             | None => max_conf
             end)
      None items in
  default 1%Q max_conf.

Definition select_components_from_entities (entities : list (string * list Span.t))
    (threshold : Q) : option (list string) * list (string * Q) :=
  match entities with
  | [] => (None, [])
  | _ =>
      let '(selected, confidences) :=
        foldl (fun '(selected, confidences) '(label, items) =>
                 match items with
                 | [] => (selected, confidences)
                 | _ =>
                     let max_conf := label_score items in
                     (if Qle_bool threshold max_conf
                      then (selected ++ [label])%list else selected,
                      dict_set confidences label max_conf)
                 end)
          ([], []) entities in
      (match selected with [] => None | _ => Some selected end, confidences)
  end.

(** [any(re.search(pattern, text, re.IGNORECASE) for pattern in patterns)] *)
Definition any_alias_matches (label : string) (text : string) : bool :=
  existsb (fun pattern => bool_decide (is_Some (re_search pattern text)))
    (default [] (dict_get COMPONENT_ALIASES label)).

Definition filter_components_by_alias (components : option (list string)) (text : string)
  : option (list string) :=
  match components with
  | None | Some [] => None
  | Some components =>
      if negb (truthy_str text) then None
      else
        match List.filter (fun label => any_alias_matches label text) components with
        | [] => None
        | matched => Some matched
        end
  end.

(** ** The evaluation tool: [incident_text], [find_evidence],
    [infer_components] and the audit pass *)

Definition incident_text (incident : Finalized.t) : string :=
  let parts :=
    Finalized.title incident
    :: omap (fun update =>
               if String.eqb (FinalUpdate.status update) "Resolved" then None
               else if truthy_str (FinalUpdate.message update)
               then Some (FinalUpdate.message update) else None)
         (Finalized.updates incident) in
  join " " (List.filter truthy_str (strip <$> parts)).

(** [text[start:end]] *)
Definition slice (text : string) (start stop : nat) : string :=
  String.substring start (stop - start) text.

Definition find_evidence (text label : string) : option string :=
  let patterns := default [] (dict_get COMPONENT_ALIASES label) in
  (fun m =>
     slice text (m_start m - 40)
       (Nat.min (m_start m + m_len m + 40) (String.length text)))
    <$> head (omap (fun pattern => re_search_span pattern text) patterns).

Section Inference.
(** The extraction model, asked with the component schema and with
    confidences: the spans it finds for each label. *)
Variable extract_entities :
  string -> list (string * string) -> list (string * list Span.t).

(** What [infer_components] returns for a text, the model's answer given. *)
Definition predict_components (text : string) (threshold : Q)
  : list string * list (string * option Q) :=
  let entities := extract_entities text COMPONENT_SCHEMA in
  let '(components, confidences) := select_components_from_entities entities threshold in
  match filter_components_by_alias components text with
  | None | Some [] => ([], [])
  | Some components =>
      (components,
       foldl (fun d label => dict_set d label (dict_get confidences label)) [] components)
  end.

Definition infer_components (text : string) (threshold : Q)
  : M (list string * list (string * option Q)) :=
  if negb (truthy_str text) then mret ([], [])
  else log_model_call text ;; mret (predict_components text threshold).

(** Components that did not come from the model:
    [inc.get("components") and inc.get("components_source") != "gliner2"]. *)
Definition has_explicit_components (inc : Finalized.t) : bool :=
  truthy_list (Finalized.components inc)
  && negb (bool_decide (Finalized.components_source inc = Some "gliner2")).

(** One iteration of the audit loop: the record it writes, if any. *)
Definition audit_incident (threshold : Q) (inc : Finalized.t) : M (option AuditRecord.t) :=
  if has_explicit_components inc then mret None
  else
    let text := incident_text inc in
    '(components, confidences) ← infer_components text threshold;
    match components with
    | [] => mret None
    | _ =>
        let evidence :=
          foldl (fun d label => dict_set d label (find_evidence text label)) []
            components in
        mret (Some (AuditRecord.mk (Finalized.id inc) (Finalized.url inc)
                      (Finalized.title inc) components confidences evidence))
    end.

(** The record of an incident that is not skipped, from what the model
    predicts for its text. *)
Definition audit_record_for (threshold : Q) (inc : Finalized.t) : option AuditRecord.t :=
  let text := incident_text inc in
  let '(components, confidences) := predict_components text threshold in
  match components with
  | [] => None
  | _ =>
      Some (AuditRecord.mk (Finalized.id inc) (Finalized.url inc) (Finalized.title inc)
              components confidences
              (foldl (fun d label => dict_set d label (find_evidence text label)) []
                 components))
  end.

(** The audit loop: the records written to the audit file, in order. *)
Fixpoint audit_pass (threshold : Q) (incidents : list Finalized.t)
  : M (list AuditRecord.t) :=
  match incidents with
  | [] => mret []
  | inc :: rest =>
      record ← audit_incident threshold inc;
      records ← audit_pass threshold rest;
      mret (match record with
            | Some r => r :: records
            | None => records
            end)
  end.
End Inference.

(** ** [build_segments] *)

Fixpoint build_segments_go (incident_id : string) (updates : list FinalUpdate.t)
  : list Segment.t :=
  match updates with
  | update :: (next :: _) as rest =>
      Segment.mk incident_id (FinalUpdate.at_ update) (FinalUpdate.at_ next)
        (FinalUpdate.status update)
      :: build_segments_go incident_id rest
  | _ => []
  end.

Definition build_segments (incident : Finalized.t) : list Segment.t :=
  build_segments_go (Finalized.id incident) (Finalized.updates incident).

(** ** The history extraction tool: [run_git], [infer_components_with_gliner2], [main] *)

Inductive infer_mode : Type := InferOff | InferGliner2.
Inductive incidents_format : Type := FormatJsonl | FormatSplit | FormatJson.

(** The parsed command line of [main], with argparse's defaults. *)
Record args : Type := mk_args {
  arg_path : string;
  arg_out : string;
  arg_no_segments : bool;
  arg_no_windows : bool;
  arg_since : option string;
  arg_until : option string;
  arg_enrich_impact : bool;
  arg_infer_components : infer_mode;
  arg_gliner_model : string;
  arg_gliner_threshold : Q;
  arg_impact_cache : string;
  arg_impact_delay : Q;
  arg_incidents_format : incidents_format
}.

Definition default_args : args :=
  mk_args "github-status-history.atom" "out" false false None None false InferGliner2
    "fastino/gliner2-base-v1" (3 # 4) ".cache/impact.json" (1 # 2) FormatJsonl.

(** [text.splitlines()], then [strip] and the empty lines dropped, as [main]
    reads the revision listing. *)
Definition is_line_break (c : ascii) : bool :=
  ((10 <=? code c) && (code c <=? 13)) || ((28 <=? code c) && (code c <=? 30)).

Fixpoint splitlines_go (cur : string) (s : string) : list string :=
  match s with
  | EmptyString => [cur]
  | String c s' =>
      if is_line_break c then cur :: splitlines_go EmptyString s'
      else splitlines_go (cur +:+ String c EmptyString) s'
  end.

Definition stripped_lines (text : string) : list string :=
  List.filter truthy_str (strip <$> splitlines_go EmptyString text).

Section Main.
(** What [main] finds around it: git (exit code, stdout and stderr of a
    command line), the Atom parser [parse_atom] with its XML library, and
    the extraction model for a model name, absent when GLiNER2 is not
    installed; then the environment of enrichment. *)
Variable git : list string -> Z * string * string.
Variable parse_atom : string -> result (list Entry.t).
Variable gliner :
  option (string -> string -> list (string * string) -> list (string * list Span.t)).
Variable html_unescape : string -> string.
Variable network : list string -> string -> result string.
Variable utcnow : nat -> datetime.

Definition run_git (arguments : list string) : result string :=
  let '(returncode, out, err) := git arguments in
  if negb (returncode =? 0)
  then Raise (RuntimeError (or_str (strip err) "git command failed"))
  else Ok out.

Definition with_inferred (incident : Finalized.t) (components : list string)
    (confidence : list (string * Q)) : Finalized.t :=
  Finalized.mk (Finalized.id incident) (Finalized.entry_id incident)
    (Finalized.title incident) (Finalized.url incident) (Finalized.published_at incident)
    (Finalized.updated_at incident) (Finalized.status_sequence incident)
    (Finalized.started_at incident) (Finalized.resolved_at incident)
    (Finalized.impact_window incident) (Finalized.downtime_start incident)
    (Finalized.downtime_end incident) (Finalized.duration_minutes incident)
    (Finalized.updates incident) (Finalized.impact incident) (Some components)
    (Some "gliner2") (Some confidence).

Definition infer_components_with_gliner2 (incident : Finalized.t) (model_name : string)
    (threshold : Q) : M Finalized.t :=
  if truthy_list (Finalized.components incident) then mret incident
  else
    match gliner with
    | None => mret incident
    | Some load_model =>
        let parts :=
          Finalized.title incident
          :: omap (fun update =>
                     if String.eqb (FinalUpdate.status update) "Resolved" then None
                     else if truthy_str (FinalUpdate.message update)
                     then Some (FinalUpdate.message update) else None)
               (Finalized.updates incident) in
        let text := join " " (strip <$> List.filter truthy_str parts) in
        if negb (truthy_str text) then mret incident
        else
          log_model_call text ;;
          let entities := load_model model_name text COMPONENT_SCHEMA in
          let '(components, confidences) :=
            select_components_from_entities entities threshold in
          match filter_components_by_alias components text with
          | None | Some [] => mret incident
          | Some components =>
              mret (with_inferred incident components
                      (foldl (fun d label =>
                                match dict_get confidences label with
                                | Some c => dict_set d label c
                                | None => d
                                end) [] components))
          end
    end.

(** The replay of the snapshots: every entry of every readable revision is
    merged into the incident table. *)
Fixpoint merge_entries (incidents : list (string * Merged.t)) (entries : list Entry.t)
  : list (string * Merged.t) :=
  match entries with
  | [] => incidents
  | entry :: rest =>
      let existing := dict_get incidents (Entry.id entry) in
      merge_entries (dict_set incidents (Entry.id entry) (merge_incident existing entry))
        rest
  end.

Fixpoint replay (path : string) (commits : list string)
    (incidents : list (string * Merged.t)) : result (list (string * Merged.t)) :=
  match commits with
  | [] => Ok incidents
  | sha :: rest =>
      match run_git ["show"; sha +:+ ":" +:+ path] with
      | Raise (RuntimeError _) => replay path rest incidents
      | Raise e => Raise e
      | Ok atom_content =>
          entries ← parse_atom atom_content;
          replay path rest (merge_entries incidents entries)
      end
  end.

Fixpoint mapM_result {A B : Type} (f : A -> result B) (l : list A) : result (list B) :=
  match l with
  | [] => Ok []
  | x :: rest => y ← f x; ys ← mapM_result f rest; Ok (y :: ys)
  end.

Fixpoint mapM_M {A B : Type} (f : A -> M B) (l : list A) : M (list B) :=
  match l with
  | [] => mret []
  | x :: rest => y ← f x; ys ← mapM_M f rest; mret (y :: ys)
  end.

(** [[i for i in finalized if overlaps_window(i, since_dt, until_dt)]] *)
Fixpoint filter_window (since_dt until_dt : option parsed_datetime)
    (finalized : list Finalized.t) : result (list Finalized.t) :=
  match finalized with
  | [] => Ok []
  | i :: rest =>
      keep ← overlaps_window i since_dt until_dt;
      kept ← filter_window since_dt until_dt rest;
      Ok (if keep : bool then i :: kept else kept)
  end.

Definition window_rows (finalized : list Finalized.t) : list WindowRow.t :=
  omap (fun incident =>
          match Finalized.downtime_start incident, Finalized.downtime_end incident with
          | Some s, Some e =>
              Some (WindowRow.mk (Finalized.id incident) s e
                      (Finalized.duration_minutes incident)
                      (match Finalized.impact_window incident with
                       | Some _ => "postmortem"
                       | None => "updates"
                       end)
                      (Finalized.title incident) (Finalized.impact incident))
          | _, _ => None
          end)
    finalized.

Definition count_text (n : nat) : string := NilEmpty.string_of_uint (Nat.to_uint n).

(** [os.makedirs(path, exist_ok=True)]: the empty path is refused. *)
Definition makedirs (path : string) : M unit :=
  if truthy_str path then mret tt else raise FileNotFoundError.

Definition main (a : args) : M unit :=
  commits_raw ← lift (run_git ["log"; "--format=%H"; "--"; arg_path a]);
  let commits := rev (stripped_lines commits_raw) in
  incidents ← lift (replay (arg_path a) commits []);
  finalized ← lift (mapM_result finalize_incident (dict_values incidents));
  let finalized :=
    sort_by (fun item => from_option iso_string "" (Finalized.published_at item))
      String.ltb finalized in
  since_dt ← lift (parse_datetime_arg (arg_since a));
  until_dt ← lift (parse_datetime_arg (arg_until a));
  finalized ←
    match since_dt, until_dt with
    | None, None => mret finalized
    | _, _ => lift (filter_window since_dt until_dt finalized)
    end;
  finalized ←
    (if arg_enrich_impact a
     then enrich_impacts html_unescape network utcnow finalized (arg_impact_cache a)
            (arg_impact_delay a)
     else mret finalized);
  finalized ←
    match arg_infer_components a, gliner with
    | InferOff, _ => mret finalized
    | InferGliner2, None =>
        print_err "GLiNER2 not installed; skipping component inference." ;;
        mret finalized
    | InferGliner2, Some _ =>
        mapM_M (fun incident =>
                  infer_components_with_gliner2 incident (arg_gliner_model a)
                    (arg_gliner_threshold a))
          finalized
    end;
  let out_dir := arg_out a in
  makedirs out_dir ;;
  incidents_path ←
    match arg_incidents_format a with
    | FormatJson =>
        write_file (out_dir +:+ "/incidents.json") (IncidentsJson finalized) ;;
        mret (Some (out_dir +:+ "/incidents.json"))
    | FormatJsonl =>
        write_file (out_dir +:+ "/incidents.jsonl") (IncidentsJsonl finalized) ;;
        mret (Some (out_dir +:+ "/incidents.jsonl"))
    | FormatSplit =>
        mapM_M (fun incident =>
                  write_file
                    (out_dir +:+ "/incidents/" +:+ Finalized.id incident +:+ ".json")
                    (IncidentJson incident))
          finalized ;;
        mret None
    end;
  (if arg_no_segments a then mret tt
   else write_file (out_dir +:+ "/segments.csv")
          (SegmentsCsv (concat (build_segments <$> finalized)))) ;;
  (if arg_no_windows a then mret tt
   else write_file (out_dir +:+ "/downtime_windows.csv")
          (WindowsCsv (window_rows finalized))) ;;
  print ("Wrote " +:+ count_text (length finalized) +:+ " incidents to "
         +:+ default (out_dir +:+ "/incidents/") incidents_path).
End Main.

(** ** Sample data: the incidents of the unit tests and of the examples *)

Definition stored_update : Update.t :=
  Update.mk (mk_datetime 2025 1 10 8 0 0 0 0) "Investigating"
    "We are investigating reports of degraded performance." None.

Definition reworded_update : Update.t :=
  Update.mk (mk_datetime 2025 1 10 8 0 0 0 0) "Investigating"
    "We are investigating reports of degraded performance for Actions." None.

Definition sample_entry (updates : list Update.t) : Entry.t :=
  Entry.mk "abc123" "tag:www.githubstatus.com,2005:Incident/abc123" "Incident with Actions"
    (Some "https://www.githubstatus.com/incidents/abc123")
    (Some (mk_datetime 2025 1 10 8 0 0 0 0)) (Some (mk_datetime 2025 1 10 9 0 0 0 0))
    updates.

(** [{update_key(u): u for u in updates}], as the tests key their updates. *)
Definition keyed (updates : list Update.t) : list (string * Update.t) :=
  foldl (fun d u => dict_set d (update_key u) u) [] updates.

(** The incident of [test_finalize_orders_by_status]. *)
Definition order_test_incident : Merged.t :=
  let published := mk_datetime 2026 1 1 22 0 0 0 0 in
  let same_time := mk_datetime 2026 1 1 22 31 0 0 0 in
  Merged.mk "order-test" "order-test" "Ordering test" None (Some published)
    (Some published)
    (keyed [Update.mk same_time "Update" "Update text." None;
            Update.mk same_time "Investigating" "Investigation started." None;
            Update.mk same_time "Resolved" "Resolved." None]).

(** An incident declared resolved at 10:00 and taken up again at 11:00. *)
Definition reopened_incident : Merged.t :=
  Merged.mk "def456" "tag:www.githubstatus.com,2005:Incident/def456"
    "Disruption with some GitHub services"
    (Some "https://www.githubstatus.com/incidents/def456")
    (Some (mk_datetime 2025 3 4 9 30 0 0 0)) (Some (mk_datetime 2025 3 4 11 0 0 0 0))
    (keyed [Update.mk (mk_datetime 2025 3 4 9 30 0 0 0) "Update"
              "We are seeing elevated error rates." None;
            Update.mk (mk_datetime 2025 3 4 10 0 0 0 0) "Resolved"
              "This incident has been resolved." None;
            Update.mk (mk_datetime 2025 3 4 11 0 0 0 0) "Investigating"
              "We are investigating reports of degraded availability." None]).

(** The incident of [test_overlaps_window]; only the four timestamps matter
    to the filter. *)
Definition overlap_test_incident : Finalized.t :=
  let t0 := render (mk_datetime 2025 1 10 0 0 0 0 0) in
  let t2 := render (mk_datetime 2025 1 10 2 0 0 0 0) in
  Finalized.mk "overlap-test" "overlap-test" "" None (Some t0) (Some t2) [] None None
    None (Some t0) (Some t2) None [] None None None None.

(** A finalized incident with a detail page, and a cache that knows the
    impact of that page but no components. *)
Definition detail_url : string := "https://www.githubstatus.com/incidents/abc123".

Definition enrich_test_incident : Finalized.t :=
  let t0 := render (mk_datetime 2025 1 10 8 0 0 0 0) in
  let t1 := render (mk_datetime 2025 1 10 9 0 0 0 0) in
  Finalized.mk "abc123" "tag:www.githubstatus.com,2005:Incident/abc123"
    "Incident with Actions" (Some detail_url) (Some t0) (Some t1)
    ["Investigating"; "Resolved"] (Some t0) (Some t1) None (Some t0) (Some t1) (Some 60)
    [FinalUpdate.mk t0 "Investigating" "We are investigating delays in Actions.";
     FinalUpdate.mk t1 "Resolved" "This incident has been resolved."]
    None None None None.

Definition cache_without_components : gmap string CacheEntry.t :=
  {[ detail_url := CacheEntry.mk (Some "major") None (Some "2025-01-10T09:05:00Z") ]}.

Definition cache_with_components : gmap string CacheEntry.t :=
  {[ detail_url :=
       CacheEntry.mk (Some "major") (Some ["Actions"]) (Some "2025-01-10T09:05:00Z") ]}.

Definition world_with_cache (items : gmap string CacheEntry.t) : world :=
  mk_world (Wrapped items) [] 0 [] [] [] [].

(** A detail page that states the impact and lists no components. *)
Definition page_without_components : string :=
  "<div class='incident-title impact-major'>Incident with Actions</div>".

(** An incident that a former run tagged by inference, and a model that
    finds Copilot in any text, with confidence 0.93. *)
Definition machine_tagged_incident : Finalized.t :=
  let t0 := render (mk_datetime 2025 2 3 14 0 0 0 0) in
  let t1 := render (mk_datetime 2025 2 3 15 0 0 0 0) in
  Finalized.mk "ghi789" "tag:www.githubstatus.com,2005:Incident/ghi789"
    "Incident with Copilot" (Some "https://www.githubstatus.com/incidents/ghi789")
    (Some t0) (Some t1) ["Investigating"; "Resolved"] (Some t0) (Some t1) None (Some t0)
    (Some t1) (Some 60)
    [FinalUpdate.mk t0 "Investigating" "We are investigating degraded Copilot chat.";
     FinalUpdate.mk t1 "Resolved" "This incident has been resolved."]
    None (Some ["Copilot"]) (Some "gliner2") (Some [("Copilot", 93 # 100)]).

Definition copilot_model (text : string) (schema : list (string * string))
  : list (string * list Span.t) :=
  [("Copilot", [Span.mk "Copilot" (Some (93 # 100))])].

Definition empty_world : world := mk_world NoFile [] 0 [] [] [] [].

(** A repository in which the tracked path has no history: every git
    command succeeds and prints nothing. And a directory that is no
    repository: git fails with its message. *)
Definition git_no_history (arguments : list string) : Z * string * string := (0, "", "").
Definition git_no_repository (arguments : list string) : Z * string * string :=
  (128, "", "fatal: not a git repository (or any of the parent directories): .git" +:+ String (chr 10) "").

(** * Theorems *)

Section StableSortFacts.
Context {A K : Type} (key : A -> K) (lt : K -> K -> bool).

Lemma sort_insert_perm (x : A) (l : list A) :
  Permutation (x :: l) (sort_insert key lt x l).
Proof.
  induction l as [|y l IH]; simpl; [reflexivity|].
  destruct (lt (key y) (key x)); [|reflexivity].
  rewrite perm_swap. now apply perm_skip.
Qed.

Lemma sort_by_perm (l : list A) : Permutation l (sort_by key lt l).
Proof.
  induction l as [|x l IH]; simpl; [reflexivity|].
  rewrite <- sort_insert_perm. now apply perm_skip.
Qed.

Hypothesis lt_asym : forall a b : K, lt a b = true -> lt b a = false.
Hypothesis le_trans :
  forall a b c : K, lt b a = false -> lt c b = false -> lt c a = false.

Lemma sort_insert_sorted (x : A) (l : list A) :
  StronglySorted (key_le key lt) l -> StronglySorted (key_le key lt) (sort_insert key lt x l).
Proof.
  induction 1 as [|y l Hs IH Hy]; simpl.
  - repeat constructor.
  - destruct (lt (key y) (key x)) eqn:E.
    + constructor; [exact IH|].
      rewrite <- sort_insert_perm. constructor; [|exact Hy].
      now apply lt_asym.
    + constructor; [now constructor|].
      constructor; [exact E|].
      eapply List.Forall_impl; [|exact Hy].
      intros z Hz. unfold key_le in *. eapply le_trans; eassumption.
Qed.

Lemma sort_by_sorted (l : list A) : StronglySorted (key_le key lt) (sort_by key lt l).
Proof.
  induction l as [|x l IH]; simpl; [constructor|].
  now apply sort_insert_sorted.
Qed.

Lemma sort_by_head_least (l : list A) (c : A) (rest : list A) :
  sort_by key lt l = c :: rest ->
  In c l /\ forall x, In x l -> lt (key x) (key c) = false.
Proof.
  intros E. pose proof (sort_by_perm l) as P. pose proof (sort_by_sorted l) as S.
  rewrite E in P, S. split.
  - eapply Permutation_in; [symmetry; exact P|]. now left.
  - intros x Hx. apply (Permutation_in _ P) in Hx.
    apply StronglySorted_inv in S as [_ F]. destruct Hx as [->|Hx].
    + destruct (lt (key x) (key x)) eqn:Exx; [|reflexivity].
      rewrite (lt_asym _ _ Exx) in Exx. discriminate.
    + rewrite List.Forall_forall in F. exact (F x Hx).
Qed.
End StableSortFacts.

Lemma in_year_candidates (R : datetime) (m d h mi : Z) (c : Z * datetime) :
  In c (flat_map
          (fun y => match datetime_utc y m d h mi with
                    | Raise _ => []
                    | Ok dt => [(Z.abs (timedelta_us dt R), dt)]
                    end)
          [year R - 1; year R; year R + 1])
  <-> year_candidate R m d h mi (snd c) /\ fst c = Z.abs (timedelta_us (snd c) R).
Proof.
  rewrite in_flat_map. unfold year_candidate. split.
  - intros (y & Hy & Hc). destruct (datetime_utc y m d h mi) eqn:E; [|destruct Hc].
    destruct Hc as [<-|[]]. split; [exists y; split; assumption|reflexivity].
  - intros ((y & Hy & E) & Hf). exists y. split; [exact Hy|].
    rewrite E. left. destruct c; simpl in *. now subst.
Qed.

(** C5. [infer_year] returns the candidate of the three-year window around
    the reference that lies nearest to the reference instant, and nothing
    exactly when the window has no valid candidate; from the reference
    2025-01-02T12:00Z, Dec 31 23:00 resolves to the year 2024. *)
Theorem infer_year_nearest_candidate (R : datetime) (m d h mi : Z) :
  match infer_year R m d h mi with
  | Some dt =>
      year_candidate R m d h mi dt
      /\ forall dt', year_candidate R m d h mi dt' ->
           Z.abs (timedelta_us dt R) <= Z.abs (timedelta_us dt' R)
  | None => forall dt', ~ year_candidate R m d h mi dt'
  end
  /\ year <$> infer_year (mk_datetime 2025 1 2 12 0 0 0 0) 12 31 23 0 = Some 2024.
Proof.
  split; [|vm_compute; reflexivity].
  unfold infer_year.
  match goal with |- context [sort_by fst Z.ltb ?l] => set (cands := l) end.
  destruct (sort_by fst Z.ltb cands) as [|c rest] eqn:E.
  - intros dt' Hc.
    assert (Hin : In (Z.abs (timedelta_us dt' R), dt') cands)
      by (apply in_year_candidates; auto).
    apply (Permutation_in _ (sort_by_perm fst Z.ltb cands)) in Hin.
    rewrite E in Hin. destruct Hin.
  - apply sort_by_head_least in E as [Hin Hmin]; try (intros; lia).
    apply in_year_candidates in Hin as [Hc Hf]. split; [exact Hc|].
    intros dt' Hc'.
    specialize (Hmin (Z.abs (timedelta_us dt' R), dt')).
    rewrite <- Hf. simpl in Hmin.
    assert (Hin' : In (Z.abs (timedelta_us dt' R), dt') cands)
      by (apply in_year_candidates; auto).
    apply Hmin in Hin'. lia.
Qed.



(** ** Calendar facts *)

Lemma datetime_utc_ok (y m d h mi : Z) (dt : datetime) :
  datetime_utc y m d h mi = Ok dt ->
  dt = mk_datetime y m d h mi 0 0 0
  /\ check_date_fields y m d = true /\ check_time_fields h mi 0 0 = true.
Proof.
  unfold datetime_utc.
  destruct (check_date_fields y m d) eqn:Ed; simpl; [|discriminate].
  destruct (check_time_fields h mi 0 0) eqn:Et; [|discriminate].
  intros [= <-]. auto.
Qed.

Lemma days_before_next_year (y : Z) :
  days_before_year (y + 1) = days_before_year y + 365 + (if is_leap y then 1 else 0).
Proof.
  unfold days_before_year, is_leap. cbv zeta.
  replace (y + 1 - 1) with y by lia.
  destruct (Z.eqb_spec (y mod 4) 0), (Z.eqb_spec (y mod 100) 0),
    (Z.eqb_spec (y mod 400) 0); simpl; Z.div_mod_to_equations; lia.
Qed.

Lemma days_before_next_month (y m : Z) :
  1 <= m < 12 ->
  days_before_month y (m + 1) = days_before_month y m + days_in_month y m.
Proof.
  intros Hm.
  assert (Hc : m = 1 \/ m = 2 \/ m = 3 \/ m = 4 \/ m = 5 \/ m = 6 \/ m = 7
               \/ m = 8 \/ m = 9 \/ m = 10 \/ m = 11) by lia.
  unfold days_before_month, days_in_month.
  repeat destruct Hc as [->|Hc]; try subst m; simpl; destruct (is_leap y); reflexivity.
Qed.

Lemma add_one_day_instant (dt dt' : datetime) :
  check_date_fields (year dt) (month dt) (day dt) = true ->
  add_one_day dt = Ok dt' ->
  instant_us dt' = instant_us dt + 86400 * 1000000.
Proof.
  unfold check_date_fields, add_one_day, instant_us, ymd2ord. intros Hv.
  repeat (apply andb_prop in Hv as [Hv ?]).
  destruct (Z.ltb_spec (day dt) (days_in_month (year dt) (month dt))).
  { intros [= <-]. simpl. lia. }
  destruct (Z.ltb_spec (month dt) 12).
  { intros [= <-]. simpl. rewrite days_before_next_month by lia. lia. }
  destruct (Z.ltb_spec (year dt) MAXYEAR); [|discriminate].
  intros [= <-]. simpl. rewrite days_before_next_year.
  assert (Hm : month dt = 12) by lia.
  unfold days_before_month, days_in_month in *. rewrite Hm in *. simpl in *.
  destruct (is_leap (year dt)); lia.
Qed.
(** ** The impact window *)

Lemma build_window_ok (y m d : Z) (st et msg : string)
    (start_at end_at : datetime) (ctx : string) :
  build_window y m d st et msg = Ok (start_at, end_at, ctx) ->
  exists sh sm eh em end0,
    datetime_utc y m d sh sm = Ok start_at
    /\ datetime_utc y m d eh em = Ok end0
    /\ if dt_leb end0 start_at then add_one_day end0 = Ok end_at else end_at = end0.
Proof.
  unfold build_window.
  destruct (int_pair st) as [[sh sm]|] eqn:E1; [|discriminate]. simpl.
  destruct (int_pair et) as [[eh em]|] eqn:E2; [|discriminate]. simpl.
  destruct (datetime_utc y m d sh sm) as [s|] eqn:E3; [|discriminate]. simpl.
  destruct (datetime_utc y m d eh em) as [e0|] eqn:E4; [|discriminate]. simpl.
  intros H. exists sh, sm, eh, em, e0.
  destruct (dt_leb e0 s) eqn:E5.
  - destruct (add_one_day e0) as [e1|] eqn:E6; simpl in H; [|discriminate].
    injection H as <- <- _. rewrite E5. auto.
  - simpl in H. injection H as <- <- _. rewrite E5. auto.
Qed.

Lemma build_window_rollover (y m d : Z) (st et msg : string)
    (start_at end_at : datetime) (ctx : string) :
  build_window y m d st et msg = Ok (start_at, end_at, ctx) ->
  instant_us start_at < instant_us end_at
  /\ exists end0, window_rollover start_at end0 end_at.
Proof.
  intros H. apply build_window_ok in H as (sh & sm & eh & em & e0 & Hs & He & Hr).
  apply datetime_utc_ok in Hs as (-> & Hd & Hts).
  apply datetime_utc_ok in He as (-> & _ & Hte).
  unfold check_time_fields in Hts, Hte.
  repeat (apply andb_prop in Hts as [Hts ?]). repeat (apply andb_prop in Hte as [Hte ?]).
  unfold window_rollover, dt_leb in *.
  destruct (Z.le_gt_cases (instant_us (mk_datetime y m d eh em 0 0 0))
                       (instant_us (mk_datetime y m d sh sm 0 0 0))) as [Hle|Hgt];
    [rewrite (proj2 (Z.leb_le _ _) Hle) in Hr|].
  - pose proof (add_one_day_instant (mk_datetime y m d eh em 0 0 0) end_at Hd Hr) as Hi.
    split.
    + rewrite Hi. unfold instant_us, one_day_us. simpl.
      repeat match goal with H : (_ <=? _) = true |- _ => apply Z.leb_le in H end.
      lia.
    + exists (mk_datetime y m d eh em 0 0 0). split; [reflexivity|].
      rewrite (proj2 (Z.leb_le _ _) Hle). split; [exact Hr|exact Hi].
  - rewrite (proj2 (Z.leb_gt _ _) Hgt) in Hr. subst end_at. split; [lia|].
    exists (mk_datetime y m d eh em 0 0 0). split; [reflexivity|].
    rewrite (proj2 (Z.leb_gt _ _) Hgt). reflexivity.
Qed.

(** C6. Whenever [parse_impact_window] returns a window, its end lies
    strictly after its start; the end is the parsed end time on the stated
    date, moved forward by exactly one day when that time does not exceed the
    start time. *)
Theorem impact_window_end_after_start (messages : list string)
    (start_at end_at : datetime) (context : string) :
  parse_impact_window messages = Ok (Some (start_at, end_at, context)) ->
  instant_us start_at < instant_us end_at
  /\ exists end0, window_rollover start_at end0 end_at.
Proof.
  induction messages as [|message rest IH]; simpl; [discriminate|].
  assert (Hb : forall y m d st et,
             Some <$> build_window y m d st et message
             = Ok (Some (start_at, end_at, context)) ->
             instant_us start_at < instant_us end_at
             /\ exists end0, window_rollover start_at end0 end_at).
  { intros y m d st et H.
    destruct (build_window y m d st et message) as [[[s e] c]|] eqn:E;
      simpl in H; [|discriminate].
    injection H as -> -> ->. eapply build_window_rollover, E. }
  destruct (re_search IMPACT_RE_1 message) as [m|].
  - destruct (group_str m 1) as [name|]; simpl; [|discriminate].
    destruct (dict_item MONTH_FULL (str_title name)) as [mo|]; simpl; [|discriminate].
    destruct (group_str m 2) as [g2|]; simpl; [|discriminate].
    destruct (int g2) as [d|]; simpl; [|discriminate].
    destruct (group_str m 3) as [g3|]; simpl; [|discriminate].
    destruct (int g3) as [y|]; simpl; [|discriminate].
    destruct (group_str m 4) as [st|]; simpl; [|discriminate].
    destruct (group_str m 5) as [et|]; simpl; [|discriminate].
    apply Hb.
  - destruct (re_search IMPACT_RE_2 message) as [m|]; [|exact IH].
    destruct (group_str m 1) as [st|]; simpl; [|discriminate].
    destruct (group_str m 2) as [et|]; simpl; [|discriminate].
    destruct (group_str m 3) as [name|]; simpl; [|discriminate].
    destruct (dict_item MONTH_FULL (str_title name)) as [mo|]; simpl; [|discriminate].
    destruct (group_str m 4) as [g4|]; simpl; [|discriminate].
    destruct (int g4) as [d|]; simpl; [|discriminate].
    destruct (group_str m 5) as [g5|]; simpl; [|discriminate].
    destruct (int g5) as [y|]; simpl; [|discriminate].
    apply Hb.
Qed.

Lemma impact_window_end_after_start_witness :
  let message :=
    "On January 13, 2025, between 23:35 UTC and 00:24 UTC all Git operations were unavailable." in
  let start_at := mk_datetime 2025 1 13 23 35 0 0 0 in
  let end_at := mk_datetime 2025 1 14 0 24 0 0 0 in
  parse_impact_window [message] = Ok (Some (start_at, end_at, message))
  /\ instant_us start_at < instant_us end_at
  /\ exists end0, window_rollover start_at end0 end_at.
Proof.
  intros message start_at end_at.
  assert (H : parse_impact_window [message] = Ok (Some (start_at, end_at, message)))
    by (vm_compute; reflexivity).
  split; [exact H|].
  exact (impact_window_end_after_start [message] start_at end_at message H).
Defined.

(** ** Insertion-ordered dictionaries *)

Section DictFacts.
Context {V : Type}.
Implicit Types (d : list (string * V)) (k : string) (v : V).

Lemma dict_get_app d d' k :
  dict_get (d ++ d') k
  = match dict_get d k with Some v => Some v | None => dict_get d' k end.
Proof.
  induction d as [|[k' v'] d IH]; simpl; [reflexivity|].
  destruct (String.eqb k' k); [reflexivity|exact IH].
Qed.

Lemma dict_get_set d k v k' :
  dict_get (dict_set d k v) k' = if String.eqb k k' then Some v else dict_get d k'.
Proof.
  induction d as [|[k0 v0] d IH]; simpl.
  - reflexivity.
  - destruct (String.eqb_spec k0 k) as [->|Hne]; simpl.
    + destruct (String.eqb k k'); reflexivity.
    + rewrite IH. destruct (String.eqb_spec k0 k') as [->|Hne'];
        [|reflexivity].
      destruct (String.eqb_spec k k'); [congruence|reflexivity].
Qed.

Lemma dict_setdefault_present d k v :
  is_Some (dict_get d k) -> dict_setdefault d k v = d.
Proof. unfold dict_setdefault. intros [v0 ->]. reflexivity. Qed.

Lemma dict_get_setdefault_kept d k v k' v0 :
  dict_get d k' = Some v0 -> dict_get (dict_setdefault d k v) k' = Some v0.
Proof.
  intros H. unfold dict_setdefault. destruct (dict_get d k); [exact H|].
  rewrite dict_get_app, H. reflexivity.
Qed.

Lemma dict_get_setdefault_same d k v : is_Some (dict_get (dict_setdefault d k v) k).
Proof.
  unfold dict_setdefault. destruct (dict_get d k) eqn:E.
  - rewrite E. eauto.
  - rewrite dict_get_app, E. simpl. rewrite String.eqb_refl. eauto.
Qed.

Section Folds.
Context {U : Type} (key : U -> string) (val : U -> V).

Lemma setdefault_fold_kept (us : list U) d k v0 :
  dict_get d k = Some v0 ->
  dict_get (foldl (fun d u => dict_setdefault d (key u) (val u)) d us) k = Some v0.
Proof.
  revert d. induction us as [|u us IH]; intros d H; simpl; [exact H|].
  apply IH, dict_get_setdefault_kept, H.
Qed.

Lemma setdefault_fold_present (us : list U) d u :
  In u us ->
  is_Some (dict_get (foldl (fun d u => dict_setdefault d (key u) (val u)) d us) (key u)).
Proof.
  revert d. induction us as [|u' us IH]; intros d Hin; [destruct Hin|].
  destruct Hin as [->|Hin]; simpl.
  - destruct (dict_get_setdefault_same d (key u) (val u)) as [v0 Hv0].
    rewrite (setdefault_fold_kept us _ _ _ Hv0). eauto.
  - apply IH, Hin.
Qed.

Lemma setdefault_fold_noop (us : list U) d :
  (forall u, In u us -> is_Some (dict_get d (key u))) ->
  foldl (fun d u => dict_setdefault d (key u) (val u)) d us = d.
Proof.
  induction us as [|u us IH]; intros H; simpl; [reflexivity|].
  rewrite dict_setdefault_present by (apply H; now left).
  apply IH. intros u' Hu'. apply H. now right.
Qed.

Lemma set_fold_present (us : list U) d u :
  (In u us \/ is_Some (dict_get d (key u))) ->
  is_Some (dict_get (foldl (fun d u => dict_set d (key u) (val u)) d us) (key u)).
Proof.
  revert d. induction us as [|u' us IH]; intros d H; simpl.
  - destruct H as [[]|H]. exact H.
  - apply IH. destruct H as [[->|Hin]|H]; [right|now left|right].
    + rewrite dict_get_set, String.eqb_refl. eauto.
    + rewrite dict_get_set. destruct (String.eqb _ _); eauto.
Qed.
End Folds.
End DictFacts.

(** ** The merge engine *)

Lemma dt_ltb_irrefl (a : datetime) : dt_ltb a a = false.
Proof. apply Z.ltb_irrefl. Qed.

Lemma present_and_beats_settled (test : datetime -> datetime -> bool)
    (x cur : option datetime) :
  (forall a, test a a = false) ->
  present_and_beats test x (if present_and_beats test x cur then x else cur) = false.
Proof.
  intros Hirr. destruct x as [a|], cur as [b|]; simpl; try reflexivity.
  - destruct (test a b) eqn:E; simpl; [apply Hirr|exact E].
  - apply Hirr.
Qed.

(** C7. Merging the same raw entry a second time changes nothing: every
    field and the update map are as the first merge left them. *)
Theorem merge_incident_idempotent (existing : option Merged.t) (incoming : Entry.t) :
  merge_incident (Some (merge_incident existing incoming)) incoming
  = merge_incident existing incoming.
Proof.
  destruct existing as [E|].
  - cbn [merge_incident Merged.published_at Merged.updated_at Merged.title
           Merged.url Merged.entry_id Merged.updates Merged.id].
    rewrite !present_and_beats_settled by (intros; apply dt_ltb_irrefl).
    f_equal. apply setdefault_fold_noop.
    intros u Hu. apply (setdefault_fold_present update_key id), Hu.
  - cbn [merge_incident Merged.published_at Merged.updated_at Merged.title
           Merged.url Merged.entry_id Merged.updates Merged.id
           present_and_beats].
    assert (Hp : present_and_beats dt_ltb (Entry.published_at incoming)
                   (Entry.published_at incoming) = false)
      by (destruct (Entry.published_at incoming); simpl; [apply dt_ltb_irrefl|reflexivity]).
    assert (Hu : present_and_beats (fun a b => dt_ltb b a) (Entry.updated_at incoming)
                   (Entry.updated_at incoming) = false)
      by (destruct (Entry.updated_at incoming); simpl; [apply dt_ltb_irrefl|reflexivity]).
    rewrite Hp, Hu. f_equal. apply setdefault_fold_noop.
    intros u Hin. apply (set_fold_present update_key id). now left.
Qed.

Lemma update_key_same_time_status (u v : Update.t) :
  Update.at_ u = Update.at_ v ->
  Update.status u = Update.status v ->
  update_key u = update_key v <-> Update.message u = Update.message v.
Proof.
  intros Hat Hst. unfold update_key. rewrite Hat, Hst. split.
  - intros H. repeat apply String.app_inj in H. exact H.
  - intros ->. reflexivity.
Qed.

Lemma dict_get_in_values {V : Type} (d : list (string * V)) (k : string) (v : V) :
  dict_get d k = Some v -> In v (dict_values d).
Proof.
  unfold dict_values. induction d as [|[k' v'] d IH]; simpl; [discriminate|].
  destruct (String.eqb k' k); [intros [= ->]; now left|].
  intros H. right. exact (IH H).
Qed.

(** What the update map holds under a key after a merge into an existing
    incident: the update already stored under the key if there is one, else
    the first incoming update with that key. *)
Lemma merge_incident_lookup (existing : Merged.t) (incoming : Entry.t) (k : string) :
  dict_get (Merged.updates (merge_incident (Some existing) incoming)) k
  = match dict_get (Merged.updates existing) k with
    | Some v => Some v
    | None =>
        List.find (fun u => String.eqb (update_key u) k) (Entry.updates incoming)
    end.
Proof.
  cbn [merge_incident Merged.updates].
  generalize (Merged.updates existing) as d.
  induction (Entry.updates incoming) as [|u us IH]; intros d; simpl.
  - destruct (dict_get d k); reflexivity.
  - rewrite IH. unfold dict_setdefault.
    destruct (dict_get d (update_key u)) as [v|] eqn:E.
    + destruct (dict_get d k) eqn:Ek; [reflexivity|].
      destruct (String.eqb_spec (update_key u) k) as [Hk|]; [|reflexivity].
      rewrite Hk in E. congruence.
    + rewrite dict_get_app. destruct (dict_get d k); [reflexivity|]. simpl.
      destruct (String.eqb (update_key u) k); reflexivity.
Qed.

(** C4, as the code has it. An incoming update that shares timestamp and
    status with a stored update leaves the stored update in place under its
    key. With the same message text it has the stored update's key and is
    not added. With a different text its key is another one, and the map
    then holds under that key the update already stored there, if any, else
    the first incoming update with that key: the incoming update itself when
    its key is new and it is the first of the entry to have it, so that the
    incident holds both texts. *)
Theorem merge_same_time_status_keyed_by_text (existing : Merged.t) (incoming : Entry.t)
    (stored u : Update.t) :
  dict_get (Merged.updates existing) (update_key stored) = Some stored ->
  In u (Entry.updates incoming) ->
  Update.at_ u = Update.at_ stored ->
  Update.status u = Update.status stored ->
  let merged := Merged.updates (merge_incident (Some existing) incoming) in
  let first_incoming :=
    List.find (fun v => String.eqb (update_key v) (update_key u))
      (Entry.updates incoming) in
  dict_get merged (update_key stored) = Some stored
  /\ is_Some (dict_get merged (update_key u))
  /\ (Update.message u = Update.message stored ->
      dict_get merged (update_key u) = Some stored)
  /\ (Update.message u <> Update.message stored ->
      update_key u <> update_key stored
      /\ dict_get merged (update_key u)
         = match dict_get (Merged.updates existing) (update_key u) with
           | Some v => Some v
           | None => first_incoming
           end
      /\ (dict_get (Merged.updates existing) (update_key u) = None ->
          first_incoming = Some u ->
          dict_get merged (update_key u) = Some u
          /\ In stored (dict_values merged) /\ In u (dict_values merged))).
Proof.
  intros Hstored Hin Hat Hst merged first_incoming.
  assert (Hkept : dict_get merged (update_key stored) = Some stored)
    by (apply (setdefault_fold_kept update_key id), Hstored).
  split; [exact Hkept|]. split; [|split].
  - apply (setdefault_fold_present update_key id), Hin.
  - intros Heq. rewrite (proj2 (update_key_same_time_status u stored Hat Hst) Heq).
    exact Hkept.
  - intros Hne.
    pose proof (merge_incident_lookup existing incoming (update_key u)) as Hl.
    fold merged in Hl. fold first_incoming in Hl.
    split; [|split; [exact Hl|]].
    + intros Hk. apply Hne. now apply update_key_same_time_status.
    + intros Hnew Hfirst. rewrite Hnew, Hfirst in Hl.
      split; [exact Hl|]. split; eapply dict_get_in_values; eassumption.
Qed.

Lemma merge_same_time_status_keyed_by_text_witness :
  let existing := merge_incident None (sample_entry [stored_update]) in
  let merged :=
    Merged.updates (merge_incident (Some existing) (sample_entry [reworded_update])) in
  dict_get merged (update_key stored_update) = Some stored_update
  /\ dict_get merged (update_key reworded_update) = Some reworded_update
  /\ update_key reworded_update <> update_key stored_update
  /\ In stored_update (dict_values merged) /\ In reworded_update (dict_values merged).
Proof.
  intros existing merged.
  destruct (merge_same_time_status_keyed_by_text existing
              (sample_entry [reworded_update]) stored_update reworded_update)
    as (Hkept & _ & _ & Hother).
  - vm_compute. reflexivity.
  - simpl. left. reflexivity.
  - reflexivity.
  - reflexivity.
  - destruct Hother as (Hne & _ & Hboth).
    + vm_compute. intros [=].
    + destruct Hboth as (Hu & Hs & Hi).
      * vm_compute. reflexivity.
      * vm_compute. reflexivity.
      * repeat split; assumption.
Defined.

(** C4, refuted as stated: the reworded update, same timestamp and status
    as the stored one, is added; the incident then holds both texts. *)
Lemma merge_adds_reworded_update :
  let existing := merge_incident None (sample_entry [stored_update]) in
  Update.at_ reworded_update = Update.at_ stored_update
  /\ Update.status reworded_update = Update.status stored_update
  /\ dict_values (Merged.updates existing) = [stored_update]
  /\ dict_values
       (Merged.updates (merge_incident (Some existing) (sample_entry [reworded_update])))
     = [stored_update; reworded_update].
Proof. vm_compute. repeat split. Qed.

(** ** The finalizer *)

Lemma string_compare_le_trans (a b c : string) :
  String.compare a b <> Gt -> String.compare b c <> Gt -> String.compare a c <> Gt.
Proof.
  revert b c. induction a as [|x a IH]; intros [|y b] [|z c]; simpl;
    try congruence.
  unfold Ascii.compare.
  destruct (N.compare_spec (N_of_ascii x) (N_of_ascii y)) as [Exy|Lxy|Gxy];
    destruct (N.compare_spec (N_of_ascii y) (N_of_ascii z)) as [Eyz|Lyz|Gyz];
    destruct (N.compare_spec (N_of_ascii x) (N_of_ascii z)) as [Exz|Lxz|Gxz];
    try congruence; try lia.
  apply IH.
Qed.

Lemma string_ltb_asym (a b : string) : String.ltb a b = true -> String.ltb b a = false.
Proof.
  unfold String.ltb. rewrite (String.compare_antisym a b).
  destruct (String.compare b a); simpl; congruence.
Qed.

Lemma string_ltb_le_trans (a b c : string) :
  String.ltb b a = false -> String.ltb c b = false -> String.ltb c a = false.
Proof.
  unfold String.ltb. intros Hab Hbc.
  pose proof (string_compare_le_trans a b c) as H.
  rewrite (String.compare_antisym b a) in Hab.
  rewrite (String.compare_antisym c b) in Hbc.
  rewrite (String.compare_antisym c a).
  destruct (String.compare a b), (String.compare b c), (String.compare a c);
    simpl in *; try congruence; exfalso; apply H; congruence.
Qed.

Lemma sort_key_lt_asym (a b : sort_key) :
  sort_key_lt a b = true -> sort_key_lt b a = false.
Proof.
  destruct a as [[ta ra] ma], b as [[tb rb] mb]. unfold sort_key_lt, dt_ltb.
  destruct (Z.eqb_spec (instant_us ta) (instant_us tb)) as [Et|Nt];
    destruct (Z.eqb_spec (instant_us tb) (instant_us ta)) as [Et'|Nt'];
    try lia; simpl.
  - destruct (Z.eqb_spec ra rb), (Z.eqb_spec rb ra); try lia; simpl.
    + apply string_ltb_asym.
    + intros H. apply Z.ltb_lt in H. apply Z.ltb_ge. lia.
  - intros H. apply Z.ltb_lt in H. apply Z.ltb_ge. lia.
Qed.

Lemma sort_key_le_trans (a b c : sort_key) :
  sort_key_lt b a = false -> sort_key_lt c b = false -> sort_key_lt c a = false.
Proof.
  destruct a as [[ta ra] ma], b as [[tb rb] mb], c as [[tc rc] mc].
  unfold sort_key_lt, dt_ltb.
  destruct (Z.eqb_spec (instant_us tb) (instant_us ta));
    destruct (Z.eqb_spec (instant_us tc) (instant_us tb));
    destruct (Z.eqb_spec (instant_us tc) (instant_us ta));
    simpl; rewrite ?Z.ltb_ge; try lia.
  destruct (Z.eqb_spec rb ra), (Z.eqb_spec rc rb), (Z.eqb_spec rc ra);
    simpl; rewrite ?Z.ltb_ge; try lia.
  apply string_ltb_le_trans.
Qed.

Lemma key_le_update_order (a b : Update.t) :
  key_le update_sort_key sort_key_lt a b ->
  update_order_le (finalize_update a) (finalize_update b).
Proof.
  unfold key_le, update_order_le, update_sort_key, sort_key_lt, dt_ltb. simpl.
  destruct (Z.eqb_spec (instant_us (Update.at_ b)) (instant_us (Update.at_ a)));
    simpl; rewrite ?Z.ltb_ge; [|lia].
  destruct (Z.eqb_spec (status_rank (Update.status b)) (status_rank (Update.status a)));
    simpl; rewrite ?Z.ltb_ge; [|lia].
  intros H. right. split; [lia|]. right. split; [lia|].
  unfold String.ltb in H. unfold String.leb.
  rewrite (String.compare_antisym (Update.message b) (Update.message a)) in H.
  destruct (String.compare (Update.message a) (Update.message b)); simpl in *; congruence.
Qed.

Lemma finalize_incident_updates (incident : Merged.t) (f : Finalized.t) :
  finalize_incident incident = Ok f ->
  Finalized.updates f
  = finalize_update <$>
      sort_by update_sort_key sort_key_lt (dict_values (Merged.updates incident)).
Proof.
  unfold finalize_incident.
  destruct (parse_impact_window _); simpl; [|discriminate].
  intros [= <-]. reflexivity.
Qed.

(** C8. The updates of a finalized incident are the updates of the merged
    incident, ordered by timestamp, then by status rank, then by message
    text; three updates [Update], [Investigating], [Resolved] sharing one
    timestamp come out as [Investigating], [Update], [Resolved]. *)
Theorem finalize_update_order (incident : Merged.t) (f : Finalized.t) :
  finalize_incident incident = Ok f ->
  StronglySorted update_order_le (Finalized.updates f)
  /\ Permutation (finalize_update <$> dict_values (Merged.updates incident))
       (Finalized.updates f)
  /\ (status_rank <$> ["Investigating"; "Identified"; "Monitoring"; "Update"; "Resolved"]
      = [0; 1; 2; 3; 4])
  /\ (Finalized.status_sequence <$> finalize_incident order_test_incident
      = Ok ["Investigating"; "Update"; "Resolved"]).
Proof.
  intros H. rewrite (finalize_incident_updates _ _ H).
  split; [|split; [|split; vm_compute; reflexivity]].
  - pose proof (sort_by_sorted update_sort_key sort_key_lt sort_key_lt_asym
                  sort_key_le_trans (dict_values (Merged.updates incident))) as S.
    induction S as [|u l S IH F]; simpl; constructor; [exact IH|].
    apply List.Forall_map. eapply List.Forall_impl; [|exact F].
    intros v. apply key_le_update_order.
  - apply Permutation_map, sort_by_perm.
Qed.

Lemma finalize_update_order_witness :
  exists f,
    finalize_incident order_test_incident = Ok f
    /\ StronglySorted update_order_le (Finalized.updates f)
    /\ FinalUpdate.status <$> Finalized.updates f
       = ["Investigating"; "Update"; "Resolved"].
Proof.
  destruct (finalize_incident order_test_incident) as [f|e] eqn:E;
    [|vm_compute in E; discriminate].
  exists f. split; [reflexivity|].
  split; [exact (proj1 (finalize_update_order order_test_incident f E))|].
  vm_compute in E. injection E as <-. reflexivity.
Defined.

(** ** The window filter *)

Lemma overlaps_window_end (incident : Finalized.t) (start : iso_text) :
  from_option parse_iso8601 (parse_iso8601 start)
    (or_ts (or_ts (Finalized.downtime_end incident) (Finalized.updated_at incident))
       (Some start))
  = parse_iso8601 (window_end incident start).
Proof.
  unfold window_end, or_ts.
  destruct (Finalized.downtime_end incident), (Finalized.updated_at incident); reflexivity.
Qed.

Lemma overlaps_window_unfold (incident : Finalized.t)
    (since_dt until_dt : option parsed_datetime) :
  is_Some since_dt \/ is_Some until_dt ->
  overlaps_window incident since_dt until_dt
  = match window_start incident with
    | None => Ok false
    | Some start =>
        ends_before ←
          from_option (lt_bound (parse_iso8601 (window_end incident start))) (Ok false)
            since_dt;
        if ends_before : bool then Ok false
        else
          starts_after ←
            from_option (gt_bound (parse_iso8601 start)) (Ok false) until_dt;
          if starts_after : bool then Ok false else Ok true
    end.
Proof.
  intros Hgiven. unfold overlaps_window.
  change (or_ts (Finalized.downtime_start incident) (Finalized.published_at incident))
    with (window_start incident).
  assert (Hbody : forall A (x y : A),
             match since_dt, until_dt with None, None => x | _, _ => y end = y).
  { intros A x y. destruct since_dt, until_dt; try reflexivity.
    exfalso. destruct Hgiven as [[? [=]]|[? [=]]]. }
  rewrite Hbody. destruct (window_start incident) as [start|]; [|reflexivity].
  rewrite overlaps_window_end. reflexivity.
Qed.

(** With bounds that carry an offset the filter is the inclusive overlap
    test: the incident has a start, the start is not after [until] and the
    end is not before [since]. *)
Lemma overlaps_window_aware_iff (incident : Finalized.t)
    (since_dt until_dt : option datetime) :
  is_Some since_dt \/ is_Some until_dt ->
  overlaps_window incident (Aware <$> since_dt) (Aware <$> until_dt) = Ok true
  <-> exists start,
        window_start incident = Some start
        /\ (forall u, until_dt = Some u ->
              instant_us (parse_iso8601 start) <= instant_us u)
        /\ (forall s, since_dt = Some s ->
              instant_us s <= instant_us (parse_iso8601 (window_end incident start))).
Proof.
  intros Hgiven. rewrite overlaps_window_unfold
    by (destruct Hgiven as [[x ->]|[x ->]]; [left|right]; eexists; reflexivity).
  destruct (window_start incident) as [start|].
  2: { split; [discriminate|]. intros (start & [=] & _). }
  set (e := parse_iso8601 (window_end incident start)).
  set (b := parse_iso8601 start).
  assert (Hs : from_option (lt_bound e) (Ok false) (Aware <$> since_dt)
               = Ok (from_option (dt_ltb e) false since_dt))
    by (destruct since_dt; reflexivity).
  assert (Hu : from_option (gt_bound b) (Ok false) (Aware <$> until_dt)
               = Ok (from_option (fun u => dt_ltb u b) false until_dt))
    by (destruct until_dt; reflexivity).
  rewrite Hs, Hu. clear Hs Hu. subst e b. simpl. unfold dt_ltb. split.
  - intros H. exists start. split; [reflexivity|]. split.
    + intros u ->. simpl in H.
      destruct (from_option _ false since_dt); [discriminate|].
      destruct (Z.ltb_spec (instant_us u) (instant_us (parse_iso8601 start)));
        [discriminate|lia].
    + intros s ->. simpl in H.
      destruct (Z.ltb_spec (instant_us (parse_iso8601 (window_end incident start)))
                  (instant_us s)); [discriminate|lia].
  - intros (start' & [= <-] & Hu' & Hs').
    assert (Es : from_option
                   (fun s => instant_us (parse_iso8601 (window_end incident start))
                             <? instant_us s) false since_dt = false).
    { destruct since_dt as [s|]; simpl; [|reflexivity].
      apply Z.ltb_ge, Hs'. reflexivity. }
    assert (Eu : from_option
                   (fun u => instant_us u <? instant_us (parse_iso8601 start))
                   false until_dt = false).
    { destruct until_dt as [u|]; simpl; [|reflexivity].
      apply Z.ltb_ge, Hu'. reflexivity. }
    rewrite Es, Eu. reflexivity.
Qed.

Lemma overlaps_window_aware_iff_witness :
  let since := Some (mk_datetime 2025 1 9 0 0 0 0 0) in
  let until := Some (mk_datetime 2025 1 11 0 0 0 0 0) in
  overlaps_window overlap_test_incident (Aware <$> since) (Aware <$> until) = Ok true
  /\ overlaps_window overlap_test_incident (Aware <$> until) None <> Ok true.
Proof.
  intros since until. split.
  - apply (overlaps_window_aware_iff overlap_test_incident since until).
    + left. eexists. reflexivity.
    + eexists. split; [reflexivity|]. split.
      * intros u [= <-]. vm_compute. discriminate.
      * intros s [= <-]. vm_compute. discriminate.
  - intros E.
    apply (overlaps_window_aware_iff overlap_test_incident until None) in E
      as (start & [= <-] & _ & Hs); [|left; eexists; reflexivity].
    specialize (Hs _ eq_refl). vm_compute in Hs. apply Hs. reflexivity.
Defined.

(** A bound without an offset stops the filter at the first incident that
    has a start: the comparison of its aware timestamp with the naive bound
    is a [TypeError]. *)
Lemma overlaps_window_naive_since (incident : Finalized.t) (start : iso_text)
    (y mo d h mi s us : Z) (until_dt : option parsed_datetime) :
  window_start incident = Some start ->
  overlaps_window incident (Some (Naive y mo d h mi s us)) until_dt = Raise TypeError.
Proof.
  intros Hstart. rewrite overlaps_window_unfold by (left; eexists; reflexivity).
  rewrite Hstart. reflexivity.
Qed.

(** C9, where the code departs from it. [--since 2025-01-09T00:00:00], an
    ISO date-time without offset, is read as a naive datetime; filtering the
    incident whose downtime is 2025-01-10T00:00Z to 02:00Z by it raises
    [TypeError], although the incident ends after the bound. The same bound
    written with [Z], or as the bare date, lets the incident pass. *)
Theorem overlaps_window_naive_bound_type_error :
  parse_datetime_arg (Some "2025-01-09T00:00:00") = Ok (Some (Naive 2025 1 9 0 0 0 0))
  /\ overlaps_window overlap_test_incident (Some (Naive 2025 1 9 0 0 0 0)) None
     = Raise TypeError
  /\ parse_datetime_arg (Some "2025-01-09T00:00:00Z")
     = Ok (Some (Aware (mk_datetime 2025 1 9 0 0 0 0 0)))
  /\ parse_datetime_arg (Some "2025-01-09")
     = Ok (Some (Aware (mk_datetime 2025 1 9 0 0 0 0 0)))
  /\ overlaps_window overlap_test_incident (Some (Aware (mk_datetime 2025 1 9 0 0 0 0 0)))
       None
     = Ok true.
Proof. repeat split; vm_compute; reflexivity. Qed.

(** Without a postmortem window the duration is the floor of the minutes
    from the start to the end of the update timeline, whatever their order. *)
Lemma finalize_duration_from_updates (incident : Merged.t) (f : Finalized.t)
    (s e : iso_text) :
  finalize_incident incident = Ok f ->
  Finalized.impact_window f = None ->
  Finalized.started_at f = Some s ->
  Finalized.resolved_at f = Some e ->
  Finalized.downtime_start f = Some s
  /\ Finalized.downtime_end f = Some e
  /\ Finalized.duration_minutes f
     = Some ((instant_us (parse_iso8601 e) - instant_us (parse_iso8601 s)) / 60000000)
  /\ (instant_us (parse_iso8601 e) < instant_us (parse_iso8601 s) ->
      (instant_us (parse_iso8601 e) - instant_us (parse_iso8601 s)) / 60000000 < 0).
Proof.
  unfold finalize_incident.
  destruct (parse_impact_window _) as [[[[sa ea] c]|]|]; simpl; try discriminate.
  - intros [= <-]. simpl. discriminate.
  - intros [= <-]. simpl. intros _ Hs He. rewrite Hs, He. simpl.
    repeat split. intros Hlt. apply Z.div_lt_upper_bound; lia.
Qed.

(** C10. The finalizer can report a downtime that ends before it starts and
    a negative duration: without a postmortem window, an incident whose last
    [Resolved] update precedes its first [Investigating] update gets the
    floor of the negative elapsed minutes. *)
Theorem finalize_negative_duration :
  exists (f : Finalized.t) (s e : iso_text),
    finalize_incident reopened_incident = Ok f
    /\ Finalized.status_sequence f = ["Update"; "Resolved"; "Investigating"]
    /\ Finalized.impact_window f = None
    /\ Finalized.downtime_start f = Some s
    /\ Finalized.downtime_end f = Some e
    /\ instant_us (parse_iso8601 e) < instant_us (parse_iso8601 s)
    /\ Finalized.duration_minutes f
       = Some ((instant_us (parse_iso8601 e) - instant_us (parse_iso8601 s)) / 60000000)
    /\ Finalized.duration_minutes f = Some (-60).
Proof.
  destruct (finalize_incident reopened_incident) as [f|x] eqn:E;
    [|vm_compute in E; discriminate].
  exists f, (render (mk_datetime 2025 3 4 11 0 0 0 0)),
    (render (mk_datetime 2025 3 4 10 0 0 0 0)).
  split; [reflexivity|].
  vm_compute in E. injection E as <-. vm_compute. repeat split; reflexivity.
Qed.

(** ** Enrichment from the impact cache *)

Section EnrichmentFacts.
Variable html_unescape : string -> string.
Variable network : list string -> string -> result string.
Variable utcnow : nat -> datetime.

Lemma load_impact_cache_pure (path : string) (w : world) :
  (load_impact_cache path w).2 = w /\ exists items, (load_impact_cache path w).1 = Ok items.
Proof.
  unfold load_impact_cache. destruct (negb (truthy_str path)); simpl; [eauto|].
  destruct (cache_at_path w); simpl; eauto.
Qed.

Lemma save_impact_cache_requests (path : string) (cache : gmap string CacheEntry.t)
    (w : world) :
  requests (save_impact_cache path cache w).2 = requests w.
Proof.
  unfold save_impact_cache. destruct (negb (truthy_str path)); [reflexivity|].
  destruct (negb (has_slash path)); reflexivity.
Qed.

(** A complete entry ends the iteration at once: the cached values are put
    on the incident, the world and the cache stay as they are. *)
Lemma enrich_incident_hit (cache_path : string) (delay : Q) (incident : Finalized.t)
    (cache : gmap string CacheEntry.t) (updated : bool) (url : string)
    (entry : CacheEntry.t) (w : world) :
  Finalized.url incident = Some url ->
  truthy_str url = true ->
  cache !! url = Some entry ->
  cache_complete (Some entry) = true ->
  enrich_incident html_unescape network utcnow cache_path delay incident cache updated w
  = (Ok (apply_components (CacheEntry.components entry)
           (apply_impact (CacheEntry.impact entry) incident), cache, updated), w).
Proof.
  intros Hurl Ht Hc Hcomplete. unfold enrich_incident.
  rewrite Hurl, Ht, Hc, Hcomplete. reflexivity.
Qed.

(** One iteration asks the network at most for the URL of its incident, and
    only when the cache has no complete entry for it; the cache changes at
    most at that URL. *)
Lemma enrich_incident_effect (cache_path : string) (delay : Q) (incident : Finalized.t)
    (cache : gmap string CacheEntry.t) (updated : bool) (w : world) :
  let run :=
    enrich_incident html_unescape network utcnow cache_path delay incident cache updated w in
  (requests run.2 = requests w
   /\ forall out, run.1 = Ok out -> out.1.2 = cache)
  \/ exists url,
       Finalized.url incident = Some url
       /\ cache_complete (cache !! url) = false
       /\ requests run.2 = (requests w ++ [url])%list
       /\ forall out, run.1 = Ok out ->
            out.1.2 = cache \/ exists entry, out.1.2 = <[url := entry]> cache.
Proof.
  unfold enrich_incident.
  destruct (Finalized.url incident) as [url|]; [|left; split; [reflexivity|]; now intros ? [= <-]].
  destruct (negb (truthy_str url)); [left; split; [reflexivity|]; now intros ? [= <-]|].
  destruct (cache_complete (cache !! url)) eqn:Ec;
    [left; split; [reflexivity|]; now intros ? [= <-]|].
  right. exists url. split; [reflexivity|]. split; [exact Ec|].
  unfold fetch_url. simpl.
  destruct (network (requests w) url) as [page|e]; simpl.
  - unfold mbind, M_bind, save_impact_cache.
    destruct (negb (truthy_str cache_path)); simpl.
    + destruct (Qeq_bool delay 0); simpl; (split; [reflexivity|]);
        intros out [= <-]; right; eexists; reflexivity.
    + destruct (negb (has_slash cache_path)); simpl.
      * split; [reflexivity|]. intros out [=].
      * destruct (Qeq_bool delay 0); simpl; (split; [reflexivity|]);
          intros out [= <-]; right; eexists; reflexivity.
  - destruct e; simpl; (split; [reflexivity|]); try (intros out [=]; fail).
    intros out [= <-]. left. reflexivity.
Qed.

(** The iteration for an incident with a URL asks the network for that URL
    exactly when the cache holds no complete entry for it. *)
Lemma enrich_incident_requests (cache_path : string) (delay : Q) (incident : Finalized.t)
    (cache : gmap string CacheEntry.t) (updated : bool) (url : string) (w : world) :
  Finalized.url incident = Some url ->
  truthy_str url = true ->
  requests (enrich_incident html_unescape network utcnow cache_path delay incident cache
              updated w).2
  = if cache_complete (cache !! url) then requests w else (requests w ++ [url])%list.
Proof.
  intros Hurl Ht. unfold enrich_incident. rewrite Hurl, Ht. simpl.
  destruct (cache_complete (cache !! url)); [reflexivity|].
  unfold fetch_url. simpl.
  destruct (network (requests w) url) as [page|e]; simpl.
  - unfold mbind, M_bind, save_impact_cache.
    destruct (negb (truthy_str cache_path)); simpl.
    + destruct (Qeq_bool delay 0); reflexivity.
    + destruct (negb (has_slash cache_path)); simpl; [reflexivity|].
      destruct (Qeq_bool delay 0); reflexivity.
  - destruct e; reflexivity.
Qed.

Lemma enrich_loop_reuse (cache_path : string) (delay : Q) (url : string)
    (entry : CacheEntry.t) (incidents : list Finalized.t) :
  truthy_str url = true ->
  cache_complete (Some entry) = true ->
  forall (cache : gmap string CacheEntry.t) (updated : bool) (w : world),
    cache !! url = Some entry ->
    let run :=
      enrich_loop html_unescape network utcnow cache_path delay incidents cache updated w in
    (exists extra, requests run.2 = (requests w ++ extra)%list /\ ~ In url extra)
    /\ forall out, run.1 = Ok out ->
         out.1.2 !! url = Some entry
         /\ Forall2 (fun i o =>
                       Finalized.url i = Some url ->
                       o = apply_components (CacheEntry.components entry)
                             (apply_impact (CacheEntry.impact entry) i))
              incidents out.1.1.
Proof.
  intros Ht Hcomplete.
  induction incidents as [|incident rest IH]; intros cache updated w Hc; simpl.
  - split; [exists []; rewrite app_nil_r; split; [reflexivity|intros []]|].
    intros out [= <-]. split; [exact Hc|constructor].
  - unfold mbind, M_bind.
    pose proof (enrich_incident_effect cache_path delay incident cache updated w) as He.
    destruct (enrich_incident html_unescape network utcnow cache_path delay incident cache
                updated w) as [[[[incident' cache'] updated']|e] w1] eqn:E1; simpl in He.
    + assert (Hreq1 : exists extra1, requests w1 = (requests w ++ extra1)%list /\ ~ In url extra1).
      { destruct He as [[Hr _]|(u & Hu & Hinc & Hr & _)].
        - exists []. rewrite app_nil_r. split; [exact Hr|intros []].
        - exists [u]. split; [exact Hr|]. intros [->|[]].
          rewrite Hc, Hcomplete in Hinc. discriminate. }
      assert (Hc1 : cache' !! url = Some entry).
      { destruct He as [[_ Hk]|(u & Hu & Hinc & _ & Hk)].
        - specialize (Hk _ eq_refl). simpl in Hk. rewrite Hk. exact Hc.
        - destruct (Hk _ eq_refl) as [Hk'|[en Hk']]; simpl in Hk'; rewrite Hk';
            [exact Hc|].
          rewrite lookup_insert_ne; [exact Hc|].
          intros ->. rewrite Hc, Hcomplete in Hinc. discriminate. }
      assert (Hinc' : Finalized.url incident = Some url ->
                      incident' = apply_components (CacheEntry.components entry)
                                    (apply_impact (CacheEntry.impact entry) incident)).
      { intros Hu. rewrite (enrich_incident_hit _ _ _ _ _ _ _ _ Hu Ht Hc Hcomplete) in E1.
        now injection E1 as <- _ _ _. }
      specialize (IH cache' updated' w1 Hc1). simpl in IH.
      destruct (enrich_loop html_unescape network utcnow cache_path delay rest cache'
                  updated' w1) as [[[[rest' cache2] updated2]|e] w2] eqn:E2; simpl in *.
      * destruct IH as [(extra2 & Hr2 & Hn2) IHout].
        destruct Hreq1 as (extra1 & Hr1 & Hn1). split.
        -- exists (extra1 ++ extra2)%list. rewrite Hr2, Hr1, app_assoc. split; [reflexivity|].
           rewrite in_app_iff. tauto.
        -- intros out [= <-]. simpl. destruct (IHout _ eq_refl) as [Hk HF].
           split; [exact Hk|]. constructor; [exact Hinc'|exact HF].
      * destruct IH as [(extra2 & Hr2 & Hn2) _].
        destruct Hreq1 as (extra1 & Hr1 & Hn1). split; [|intros out [=]].
        exists (extra1 ++ extra2)%list. rewrite Hr2, Hr1, app_assoc. split; [reflexivity|].
        rewrite in_app_iff. tauto.
    + split; [|intros out [=]].
      destruct He as [[Hr _]|(u & Hu & Hinc & Hr & _)].
      * exists []. rewrite app_nil_r. split; [exact Hr|intros []].
      * exists [u]. split; [exact Hr|]. intros [->|[]].
        rewrite Hc, Hcomplete in Hinc. discriminate.
Qed.


Lemma enrich_impacts_reuse (incidents : list Finalized.t)
    (cache_path : string) (delay : Q) (w : world) (cache : gmap string CacheEntry.t)
    (url : string) (entry : CacheEntry.t) :
  (load_impact_cache cache_path w).1 = Ok cache ->
  cache !! url = Some entry ->
  truthy_str url = true ->
  truthy_opt_str (CacheEntry.impact entry) = true ->
  is_Some (CacheEntry.components entry) ->
  let run :=
    enrich_impacts html_unescape network utcnow incidents cache_path delay w in
  (exists extra, requests run.2 = (requests w ++ extra)%list /\ ~ In url extra)
  /\ forall out, run.1 = Ok out ->
       Forall2 (fun i o =>
                  Finalized.url i = Some url ->
                  o = apply_components (CacheEntry.components entry)
                        (apply_impact (CacheEntry.impact entry) i))
         incidents out.
Proof.
  intros Hload Hc Ht Himpact Hcomp.
  assert (Hcomplete : cache_complete (Some entry) = true).
  { unfold cache_complete. rewrite Himpact. simpl. now apply bool_decide_eq_true. }
  unfold enrich_impacts, mbind, M_bind.
  destruct (load_impact_cache_pure cache_path w) as [Hw _].
  destruct (load_impact_cache cache_path w) as [[cache0|e] w0]; simpl in Hload, Hw;
    [|discriminate].
  injection Hload as ->. subst w0.
  pose proof (enrich_loop_reuse cache_path delay url entry incidents Ht Hcomplete cache
                false w Hc) as [(extra & Hr & Hn) Hout].
  destruct (enrich_loop html_unescape network utcnow cache_path delay incidents cache false
              w) as [[[[out cache1] updated1]|e] w1]; simpl in *.
  - destruct (Hout _ eq_refl) as [_ HF]. simpl in HF.
    assert (Hsave : forall (m : M unit),
               (forall w', requests (m w').2 = requests w') ->
               let run := match m w1 with
                          | (Ok _, w') => (Ok out, w')
                          | (Raise e, w') => (Raise e, w')
                          end in
               (exists extra, requests run.2 = (requests w ++ extra)%list /\ ~ In url extra)
               /\ forall out', run.1 = Ok out' ->
                    Forall2 (fun i o =>
                               Finalized.url i = Some url ->
                               o = apply_components (CacheEntry.components entry)
                                     (apply_impact (CacheEntry.impact entry) i))
                      incidents out').
    { intros m Hm. specialize (Hm w1). destruct (m w1) as [[[]|e] w2]; simpl in *.
      - split; [exists extra; rewrite Hm; auto|]. now intros out' [= <-].
      - split; [exists extra; rewrite Hm; auto|]. intros out' [=]. }
    destruct updated1.
    + apply (Hsave (save_impact_cache cache_path cache1)).
      intros w'. apply save_impact_cache_requests.
    + apply (Hsave (mret tt)). reflexivity.
  - split; [eauto|]. intros out [=].
Qed.

End EnrichmentFacts.



(** ** The audit pass of the evaluation tool *)

Section AuditFacts.
Variable extract_entities :
  string -> list (string * string) -> list (string * list Span.t).

Lemma audit_incident_skipped (threshold : Q) (inc : Finalized.t) (w : world) :
  has_explicit_components inc = true ->
  audit_incident extract_entities threshold inc w = (Ok None, w).
Proof. intros H. unfold audit_incident. rewrite H. reflexivity. Qed.

Lemma audit_incident_inferred (threshold : Q) (inc : Finalized.t) (w : world) :
  has_explicit_components inc = false ->
  truthy_str (incident_text inc) = true ->
  audit_incident extract_entities threshold inc w
  = (Ok (audit_record_for extract_entities threshold inc),
     mk_world (cache_at_path w) (requests w) (sleeps w)
       (model_calls w ++ [incident_text inc]) (written w) (stdout w) (stderr w)).
Proof.
  intros H Ht. unfold audit_incident, audit_record_for, infer_components.
  rewrite H, Ht. simpl. unfold mbind, M_bind. simpl.
  destruct (predict_components extract_entities (incident_text inc) threshold)
    as [[|c cs] confs]; reflexivity.
Qed.

End AuditFacts.



(** ** The history extraction tool *)

Section MainFacts.
Variable git : list string -> Z * string * string.
Variable parse_atom : string -> result (list Entry.t).
Variable gliner :
  option (string -> string -> list (string * string) -> list (string * list Span.t)).
Variable html_unescape : string -> string.
Variable network : list string -> string -> result string.
Variable utcnow : nat -> datetime.

Lemma enrich_impacts_nil (cache_path : string) (delay : Q) (w : world) :
  enrich_impacts html_unescape network utcnow [] cache_path delay w = (Ok [], w).
Proof.
  unfold enrich_impacts, mbind, M_bind.
  destruct (load_impact_cache_pure cache_path w) as [Hw [items Hi]].
  destruct (load_impact_cache cache_path w) as [r w0]. simpl in *. subst. reflexivity.
Qed.

End MainFacts.



(** ** The repository's unit tests, replayed on the embedding *)

Example impact_window_cross_midnight :
  parse_impact_window
    ["On January 13, 2025, between 23:35 UTC and 00:24 UTC all Git operations were unavailable due to a configuration change."]
  = Ok (Some (mk_datetime 2025 1 13 23 35 0 0 0, mk_datetime 2025 1 14 0 24 0 0 0,
     "On January 13, 2025, between 23:35 UTC and 00:24 UTC all Git operations were unavailable due to a configuration change.")).
Proof. vm_compute. reflexivity. Qed.

Example impact_window_alt_phrase :
  parse_impact_window
    ["We experienced disruption between 01:00 UTC and 14:00 UTC, on January 28, 2024, impacting avatars."]
  = Ok (Some (mk_datetime 2024 1 28 1 0 0 0 0, mk_datetime 2024 1 28 14 0 0 0 0,
     "We experienced disruption between 01:00 UTC and 14:00 UTC, on January 28, 2024, impacting avatars.")).
Proof. vm_compute. reflexivity. Qed.

Example infer_year_boundary :
  year <$> infer_year (mk_datetime 2025 1 2 12 0 0 0 0) 12 31 23 0 = Some 2024.
Proof. vm_compute. reflexivity. Qed.
